(** * zk_shell/cli.py: the execution-mode dispatcher and the REPL supervisor

    A shallow embedding of [zk_shell/cli.py].  The module drives three
    collaborators it does not define: the [Shell] object, the standard input
    and the terminal prompt ([raw_input]).  Their answers are supplied by an
    environment; every call to one of them is recorded in a trace, in the
    order in which the program performs it.

    - Python exceptions are explicit results and [try]/[except] is a
      combinator; an exception that no clause matches keeps propagating.
    - The process state is the part the module reads and writes: the object
      bound to [sys.stdout] and the disposition of SIGUSR2.
    - SIGUSR2 may arrive while a call into a collaborator is in progress; it
      is then delivered under the disposition in force: [sigusr_handler]
      raises [StateTransition] out of the call, the default action terminates
      the process.
    - The [while True] loop of [CLI.__call__] runs on a bound on the number
      of its iterations; [Unfinished] is the result of a run that is still
      in the loop when the bound is reached. *)

From Stdlib Require Import String Ascii List ZArith Bool Arith Lia.
Import ListNotations.
Local Open Scope string_scope.
Local Open Scope list_scope.

(** ** Data *)

(** [CLIParams]: the namedtuple
    "connect_timeout run_once run_from_stdin sync_connect hosts readonly". *)
Record CLIParams := mkCLIParams {
  connect_timeout : Z;
  run_once : string;
  run_from_stdin : bool;
  sync_connect : bool;
  hosts : list string;
  readonly : bool
}.

(** The exception classes that the module names, raises or may receive from a
    collaborator.  [StateTransition] is the module's own class;
    [SystemExit rc] is what [sys.exit(rc)] raises. *)
Inductive exn :=
| StateTransition
| KeyboardInterrupt
| IOError
| EOFError
| SystemExit (rc : Z)
| OtherError (name : string).

(** What [Shell.onecmd] may hand back: [None] or some other object. *)
Inductive pyval :=
| PyNone
| PyBool (b : bool)
| PyInt (z : Z)
| PyStr (s : string).

(** [x == None] *)
Definition eq_None (v : pyval) : bool :=
  match v with PyNone => true | _ => false end.

(** The object bound to [sys.stdout]: the interpreter's file object, or an
    instance of the local class [Unbuffered] holding another stream in its
    [stream] attribute. *)
Inductive stream :=
| SysStdout
| Unbuffered (inner : stream).

(** Disposition of SIGUSR2 in the process. *)
Inductive sighandler :=
| SIG_DFL
| SigusrHandler.

(** Keyword arguments of the [Shell(...)] constructor call. *)
Record ShellArgs := mkShellArgs {
  sh_hosts : list string;
  sh_connect_timeout : Z;
  sh_setup_readline : bool;
  sh_output : stream;
  sh_async : bool;
  sh_read_only : bool
}.

(** Calls to the collaborators, as they appear in the trace. *)
Inductive event :=
| EvShell (args : ShellArgs)
| EvOnecmd (cmd : string)
| EvReadlines
| EvRun (intro : option string)
| EvRawInput (prompt : string).

(** How a call into a collaborator ends: it returns, it raises, or SIGUSR2
    is delivered to the process while the call is in progress. *)
Inductive response (A : Type) :=
| Returns (a : A)
| Raises (e : exn)
| Sigusr2.
Arguments Returns {A} a.
Arguments Raises {A} e.
Arguments Sigusr2 {A}.

(** The environment: the package version string and the behaviour of each
    collaborator, which may depend on everything that happened before the
    call (the trace so far). *)
Record Env := mkEnv {
  version : string;
  Shell_init : list event -> ShellArgs -> response unit;
  Shell_onecmd : list event -> string -> response pyval;
  Shell_run : list event -> option string -> response unit;
  stdin_readlines : list event -> response (list string);
  raw_input : list event -> string -> response string
}.

(** The process state the module reads and writes. *)
Record World := mkWorld {
  trace : list event;
  sys_stdout : stream;
  sigusr2 : sighandler
}.

Definition initial_world : World := mkWorld [] SysStdout SIG_DFL.

(** ** Results and the monad of the embedding *)

(** A computation returns a value, raises an exception, is terminated by the
    default action of an unhandled SIGUSR2, or is still running when the
    iteration bound of the supervisor loop is reached. *)
Inductive result (A : Type) :=
| Normal (a : A)
| Raise (e : exn)
| Killed
| Unfinished.
Arguments Normal {A} a.
Arguments Raise {A} e.
Arguments Killed {A}.
Arguments Unfinished {A}.

Definition M (A : Type) : Type := World -> result A * World.

Definition ret {A} (a : A) : M A := fun w => (Normal a, w).

Definition bind {A B} (m : M A) (k : A -> M B) : M B :=
  fun w =>
    match m w with
    | (Normal a, w') => k a w'
    | (Raise e, w') => (Raise e, w')
    | (Killed, w') => (Killed, w')
    | (Unfinished, w') => (Unfinished, w')
    end.

Definition raise {A} (e : exn) : M A := fun w => (Raise e, w).

Notation "x <- m ;; k" := (bind m (fun x => k))
  (at level 61, m at next level, right associativity).
Notation "m ;;; k" := (bind m (fun _ => k))
  (at level 61, right associativity).

(** [try: body except <classes>: handler]; [h e = None] when no clause
    matches the exception [e], which then keeps propagating. *)
Definition try_except {A} (body : M A) (h : exn -> option (M A)) : M A :=
  fun w =>
    match body w with
    | (Raise e, w') =>
        match h e with
        | Some handle => handle w'
        | None => (Raise e, w')
        end
    | r => r
    end.

Definition when (b : bool) (m : M unit) : M unit :=
  if b then m else ret tt.

(** ** The module's functions *)

(** [sigusr_handler], installed for SIGUSR2: raise StateTransition() *)
Definition sigusr_handler {A} : result A := Raise StateTransition.

(** Delivery of SIGUSR2 under a given disposition. *)
Definition deliver_sigusr2 {A} (h : sighandler) : result A :=
  match h with
  | SigusrHandler => sigusr_handler
  | SIG_DFL => Killed
  end.

(** [log ev w]: the world [w] with the call [ev] recorded. *)
Definition log (ev : event) (w : World) : World :=
  mkWorld (trace w ++ [ev]) (sys_stdout w) (sigusr2 w).

(** A call into a collaborator: the call is recorded, and its end is the one
    the environment gives for the history so far; SIGUSR2 arriving during the
    call is delivered under the disposition in force. *)
Definition extcall {A} (ev : event) (resp : list event -> response A) : M A :=
  fun w =>
    match resp (trace w) with
    | Returns a => (Normal a, log ev w)
    | Raises e => (Raise e, log ev w)
    | Sigusr2 => (deliver_sigusr2 (sigusr2 w), log ev w)
    end.

(** [set_unbuffered_mode()]: sys.stdout = Unbuffered(sys.stdout) *)
Definition set_unbuffered_mode : M unit :=
  fun w => (Normal tt, mkWorld (trace w) (Unbuffered (sys_stdout w)) (sigusr2 w)).

Definition get_stdout : M stream := fun w => (Normal (sys_stdout w), w).

(** [signal.signal(signal.SIGUSR2, h)] *)
Definition signal_SIGUSR2 (h : sighandler) : M unit :=
  fun w => (Normal tt, mkWorld (trace w) (sys_stdout w) h).

(** [sys.exit(rc)] *)
Definition sys_exit {A} (rc : Z) : M A := raise (SystemExit rc).

(** Whitespace in the sense of [str.rstrip()] without argument, on a byte
    string: the characters of [string.whitespace] (tab, LF, VT, FF, CR,
    space).  (A Python 3 text string counts the separators 0x1c-0x1f as
    whitespace as well.) *)
Definition isspace (c : ascii) : bool :=
  let n := nat_of_ascii c in
  ((9 <=? n)%nat && (n <=? 13)%nat) || (n =? 32)%nat.

(** [s.rstrip()] *)
Fixpoint rstrip (s : string) : string :=
  match s with
  | EmptyString => EmptyString
  | String c rest =>
      match rstrip rest with
      | EmptyString => if isspace c then EmptyString else String c EmptyString
      | r => String c r
      end
  end.

(** [for cmd in lines: shell.onecmd(cmd.rstrip())] *)
Fixpoint for_each_line (env : Env) (lines : list string) : M unit :=
  match lines with
  | [] => ret tt
  | cmd :: rest =>
      extcall (EvOnecmd (rstrip cmd)) (fun tr => Shell_onecmd env tr (rstrip cmd)) ;;;
      for_each_line env rest
  end.

Definition LF : string := String "010"%char EmptyString.

(** The prompt of the exit confirmation: a newline, then [Exit? (y|n) ]. *)
Definition exit_prompt : string := (LF ++ "Exit? (y|n) ")%string.

(** Outcome of one pass through the body of the [while True] loop. *)
Inductive ctl := Break | Continue.

(** The body of the loop, up to and excluding [first = False]. *)
Definition loop_body (env : Env) (intro : string) (first : bool) : M ctl :=
  try_except
    (let arg := if first then Some intro else None in
     extcall (EvRun arg) (fun tr => Shell_run env tr arg) ;;;
     ret Continue)
    (fun e =>
       match e with
       | StateTransition => Some (ret Continue)
       | KeyboardInterrupt =>
           Some (done <- extcall (EvRawInput exit_prompt)
                           (fun tr => raw_input env tr exit_prompt) ;;
                 if String.eqb done "y" then ret Break else ret Continue)
       | _ => None
       end).

(** [while True: ...; first = False], on at most [fuel] iterations. *)
Fixpoint supervise (env : Env) (intro : string) (fuel : nat) (first : bool)
  : M unit :=
  match fuel with
  | O => fun w => (Unfinished, w)
  | S fuel' =>
      c <- loop_body env intro first ;;
      match c with
      | Break => ret tt
      | Continue => supervise env intro fuel' false
      end
  end.

(** ["Welcome to zk-shell (%s)" % (__version__)] *)
Definition welcome (env : Env) : string :=
  ("Welcome to zk-shell (" ++ version env ++ ")")%string.

(** The local variable [interactive] of [CLI.__call__]. *)
Definition interactive (params : CLIParams) : bool :=
  String.eqb (run_once params) EmptyString && negb (run_from_stdin params).

(** The local variable [async] of [CLI.__call__]. *)
Definition async (params : CLIParams) : bool :=
  if sync_connect params || negb (interactive params) then false else true.

(** [CLI.__call__(params)], for a [params] that is not [None] (otherwise the
    record is first obtained from [get_params()]). *)
Definition CLI_call (env : Env) (fuel : nat) (params : CLIParams) : M unit :=
  when (negb (interactive params)) set_unbuffered_mode ;;;
  out <- get_stdout ;;
  let args := mkShellArgs (hosts params) (connect_timeout params)
                (interactive params) out (async params) (readonly params) in
  extcall (EvShell args) (fun tr => Shell_init env tr args) ;;;
  when (negb (interactive params))
    (rc <- try_except
             (if negb (String.eqb (run_once params) EmptyString) then
                r <- extcall (EvOnecmd (run_once params))
                       (fun tr => Shell_onecmd env tr (run_once params)) ;;
                ret (if eq_None r then 0%Z else 1%Z)
              else
                lines <- extcall EvReadlines (stdin_readlines env) ;;
                for_each_line env lines ;;;
                ret 0%Z)
             (fun e => match e with IOError => Some (ret 1%Z) | _ => None end) ;;
     sys_exit rc) ;;;
  when (negb (sync_connect params)) (signal_SIGUSR2 SigusrHandler) ;;;
  supervise env (welcome env) fuel true.

(** The exit status of the process when [CLI.__call__] is its entry point:
    the code given to [sys.exit], or 0 when the call returns. *)
Definition exit_code (r : result unit) : option Z :=
  match r with
  | Normal _ => Some 0%Z
  | Raise (SystemExit rc) => Some rc
  | _ => None
  end.

(** ** The execution modes *)

Inductive ExecutionMode := OneShot | Batch | Interactive.

(** The mode as the nested tests of [CLI.__call__] select it: the branch
    under [if not interactive] splits on [params.run_once != ""]. *)
Definition code_mode (params : CLIParams) : ExecutionMode :=
  if negb (interactive params) then
    if negb (String.eqb (run_once params) EmptyString) then OneShot else Batch
  else Interactive.

(** The mode as the specification words it: one-shot if the command is
    non-empty; else batch if reading from standard input is requested; else
    interactive. *)
Definition spec_mode (params : CLIParams) : ExecutionMode :=
  match run_once params with
  | String _ _ => OneShot
  | EmptyString => if run_from_stdin params then Batch else Interactive
  end.

(** The handler of [except IOError: rc = 1]. *)
Definition on_IOError (e : exn) : option (M Z) :=
  match e with IOError => Some (ret 1%Z) | _ => None end.

(** The arguments [Shell(...)] is called with in a non-interactive mode. *)
Definition shell_args_scripted (params : CLIParams) (out : stream) : ShellArgs :=
  mkShellArgs (hosts params) (connect_timeout params) false out false
    (readonly params).

(** The guarded block of one-shot mode: the [try] statement with the
    assignment to [rc] and its [except IOError] clause. *)
Definition oneshot_block (env : Env) (params : CLIParams) : M Z :=
  try_except
    (r <- extcall (EvOnecmd (run_once params))
            (fun tr => Shell_onecmd env tr (run_once params)) ;;
     ret (if eq_None r then 0%Z else 1%Z))
    on_IOError.

(** The guarded block of batch mode. *)
Definition batch_block (env : Env) : M Z :=
  try_except
    (lines <- extcall EvReadlines (stdin_readlines env) ;;
     for_each_line env lines ;;;
     ret 0%Z)
    on_IOError.

(** The statements executed in a non-interactive mode, around the guarded
    block of that mode. *)
Definition scripted_path (block : M Z) (env : Env) (params : CLIParams)
  : M unit :=
  set_unbuffered_mode ;;;
  out <- get_stdout ;;
  extcall (EvShell (shell_args_scripted params out))
    (fun tr => Shell_init env tr (shell_args_scripted params out)) ;;;
  rc <- block ;;
  sys_exit rc.

(** The statements executed in one-shot mode. *)
Definition oneshot_path (env : Env) (params : CLIParams) : M unit :=
  scripted_path (oneshot_block env params) env params.

(** The statements executed in batch mode. *)
Definition batch_path (env : Env) (params : CLIParams) : M unit :=
  scripted_path (batch_block env) env params.

(** The statements executed in interactive mode. *)
Definition interactive_path (env : Env) (fuel : nat) (params : CLIParams)
  : M unit :=
  out <- get_stdout ;;
  let args := mkShellArgs (hosts params) (connect_timeout params) true out
                (negb (sync_connect params)) (readonly params) in
  extcall (EvShell args) (fun tr => Shell_init env tr args) ;;;
  when (negb (sync_connect params)) (signal_SIGUSR2 SigusrHandler) ;;;
  supervise env (welcome env) fuel true.

(** The statements executed in a given mode. *)
Definition mode_path (m : ExecutionMode) (env : Env) (fuel : nat)
  (params : CLIParams) : M unit :=
  match m with
  | OneShot => oneshot_path env params
  | Batch => batch_path env params
  | Interactive => interactive_path env fuel params
  end.

(** ** Observations on traces and worlds *)

(** [extends w w']: the world [w'] is [w] with further calls recorded; the
    stream bound to [sys.stdout] and the disposition of SIGUSR2 are those of
    [w]. *)
Definition extends (w w' : World) : Prop :=
  sys_stdout w' = sys_stdout w /\
  sigusr2 w' = sigusr2 w /\
  exists evs, trace w' = trace w ++ evs.

(** [logs evs w]: the world [w] after the calls [evs]. *)
Definition logs (evs : list event) (w : World) : World :=
  mkWorld (trace w ++ evs) (sys_stdout w) (sigusr2 w).

(** The arguments of the [Shell(...)] call of a process that starts in
    [initial_world]. *)
Definition shell_args (params : CLIParams) : ShellArgs :=
  mkShellArgs (hosts params) (connect_timeout params) (interactive params)
    (if interactive params then SysStdout else Unbuffered SysStdout)
    (async params) (readonly params).

(** The world in which the guarded block of a non-interactive mode starts:
    [sys.stdout] wrapped once, the [Shell] constructed on it. *)
Definition scripted_start (params : CLIParams) : World :=
  mkWorld [EvShell (shell_args params)] (Unbuffered SysStdout) SIG_DFL.

(** The arguments of the successive calls of [shell.run] in a trace. *)
Fixpoint run_args (tr : list event) : list (option string) :=
  match tr with
  | [] => []
  | EvRun a :: rest => a :: run_args rest
  | _ :: rest => run_args rest
  end.

(** The arguments of the successive calls of [shell.onecmd] in a trace. *)
Fixpoint cmd_args (tr : list event) : list string :=
  match tr with
  | [] => []
  | EvOnecmd c :: rest => c :: cmd_args rest
  | _ :: rest => cmd_args rest
  end.

(** Every command of [cmds], executed in turn from the history [tr],
    returns. *)
Fixpoint all_return (env : Env) (tr : list event) (cmds : list string) : Prop :=
  match cmds with
  | [] => True
  | c :: rest =>
      (exists v, Shell_onecmd env tr c = Returns v) /\
      all_return env (tr ++ [EvOnecmd c]) rest
  end.


(** ** Whitespace at the end of a line *)

(** Every character of the string is whitespace. *)
Fixpoint all_space (s : string) : bool :=
  match s with
  | EmptyString => true
  | String c rest => isspace c && all_space rest
  end.

(** The last character of the string is whitespace. *)
Fixpoint ends_in_space (s : string) : bool :=
  match s with
  | EmptyString => false
  | String c EmptyString => isspace c
  | String _ rest => ends_in_space rest
  end.

(** The stripping that the specification words: only the line terminators
    (LF, CR) at the end of the line are removed. *)
Definition is_line_terminator (c : ascii) : bool :=
  let n := nat_of_ascii c in (n =? 10)%nat || (n =? 13)%nat.

Fixpoint strip_line_terminators (s : string) : string :=
  match s with
  | EmptyString => EmptyString
  | String c rest =>
      match strip_line_terminators rest with
      | EmptyString =>
          if is_line_terminator c then EmptyString else String c EmptyString
      | r => String c r
      end
  end.

(** ** The output adapter *)

Section OutputAdapter.

(** The interpreter's file object behind [sys.stdout]: its state, and its
    [write] and [flush] methods, which return or raise.  The value a call
    returns is not part of the model: [Unbuffered.write] returns [None]. *)
Variable file : Type.
Variable file_write : string -> file -> option exn * file.
Variable file_flush : file -> option exn * file.

(** The attribute names that ordinary lookup finds on any instance of
    [object], the base class of [Unbuffered]; [write] and [flush] are not
    among them. *)
Variable object_has : string -> bool.

Definition io : Type := file -> option exn * file.

(** Two statements in sequence: the second runs if the first returns. *)
Definition io_then (a b : io) : io :=
  fun f =>
    match a f with
    | (None, f') => b f'
    | (Some e, f') => (Some e, f')
    end.

(** [s.flush()]: [Unbuffered] does not define [flush], so the call goes
    through [__getattr__] to the wrapped stream. *)
Fixpoint stream_flush (s : stream) : io :=
  match s with
  | SysStdout => file_flush
  | Unbuffered inner => stream_flush inner
  end.

(** [s.write(data)]; for an [Unbuffered] object:
    self.stream.write(data); self.stream.flush() *)
Fixpoint stream_write (s : stream) (data : string) : io :=
  match s with
  | SysStdout => file_write data
  | Unbuffered inner =>
      io_then (stream_write inner data) (stream_flush inner)
  end.

(** Where the lookup of an attribute ends: on an [Unbuffered] object (its
    instance attribute [stream], a name of its class or of [object]), or on
    the file object. *)
Inductive attribute :=
| OnWrapper (self : stream) (name : string)
| OnFile (name : string).

(** The names bound in the body of [class Unbuffered] and in
    [__init__]. *)
Definition Unbuffered_names : list string :=
  ["stream"; "__init__"; "write"; "__getattr__"].

Definition found_on_wrapper (name : string) : bool :=
  existsb (String.eqb name) Unbuffered_names || object_has name.

(** [getattr(s, name)]; [__getattr__] is consulted only for a name that
    ordinary lookup does not find: return getattr(self.stream, attr) *)
Fixpoint getattr (s : stream) (name : string) : attribute :=
  match s with
  | SysStdout => OnFile name
  | Unbuffered inner =>
      if found_on_wrapper name then OnWrapper s name else getattr inner name
  end.

End OutputAdapter.

(** ** Example environments

    Collaborators that follow a script: the [k]-th call of a kind ends the
    way the [k]-th entry of the script for that kind says. *)

Definition is_run (e : event) : bool :=
  match e with EvRun _ => true | _ => false end.
Definition is_prompt (e : event) : bool :=
  match e with EvRawInput _ => true | _ => false end.
Definition is_cmd (e : event) : bool :=
  match e with EvOnecmd _ => true | _ => false end.

Definition seen (f : event -> bool) (tr : list event) : nat :=
  length (filter f tr).

Definition scripted_env (init : response unit) (cmds : list (response pyval))
  (stdin : response (list string)) (runs : list (response unit))
  (answers : list (response string)) : Env :=
  mkEnv "1.0.0"
    (fun _ _ => init)
    (fun tr _ => nth (seen is_cmd tr) cmds (Returns PyNone))
    (fun tr _ => nth (seen is_run tr) runs (Raises KeyboardInterrupt))
    (fun _ => stdin)
    (fun tr _ => nth (seen is_prompt tr) answers (Returns "y")).

Definition params_interactive : CLIParams :=
  mkCLIParams 10 EmptyString false false [] false.
Definition params_batch : CLIParams :=
  mkCLIParams 10 EmptyString true false [] false.
Definition params_oneshot : CLIParams :=
  mkCLIParams 10 "ls /" true false [] false.

(** A session: the prompt loop returns, is restarted by SIGUSR2, is
    interrupted (exit declined), is restarted by [StateTransition], and is
    interrupted again (exit confirmed). *)
Definition prompt_env : Env :=
  scripted_env (Returns tt) [] (Returns [])
    [Returns tt; Sigusr2; Raises KeyboardInterrupt; Raises StateTransition;
     Raises KeyboardInterrupt]
    [Returns "n"; Returns "y"].

(** An environment whose first prompt loop is interrupted and whose first
    confirmation is answered "y". *)
Definition quit_env : Env :=
  scripted_env (Returns tt) [] (Returns []) [] [].


(** The first prompt loop is interrupted from the keyboard, and SIGUSR2
    arrives while [raw_input] waits for the answer. *)
Definition reconnect_while_confirming_env : Env :=
  scripted_env (Returns tt) [] (Returns []) [Raises KeyboardInterrupt] [Sigusr2].

(** The second command of three raises [IOError]; reading the input does
    not. *)
Definition broken_pipe_env : Env :=
  scripted_env (Returns tt) [Returns (PyInt 0); Raises IOError]
    (Returns [("a" ++ LF)%string; ("b" ++ LF)%string; ("c" ++ LF)%string])
    [] [].

(** Reading the standard input raises [IOError]. *)
Definition unreadable_stdin_env : Env :=
  scripted_env (Returns tt) [] (Raises IOError) [] [].

Definition TAB : string := String "009"%char EmptyString.

(** A line that ends in a space, a tab and a newline. *)
Definition padded_line : string := ("ls /" ++ " " ++ TAB ++ LF)%string.

Definition padded_input_env : Env :=
  scripted_env (Returns tt) [] (Returns [padded_line]) [] [].

(** A block-buffered file: written data stays in [pending] until a flush
    moves it to [delivered], where a reader of the pipe sees it. *)
Record buffered := mkBuffered { pending : string; delivered : string }.

Definition buffered_write (data : string) (f : buffered)
  : option exn * buffered :=
  (None, mkBuffered (pending f ++ data)%string (delivered f)).

Definition buffered_flush (f : buffered) : option exn * buffered :=
  (None, mkBuffered EmptyString (delivered f ++ pending f)%string).

(** ** Further observations on traces *)

Definition is_shell (e : event) : bool :=
  match e with EvShell _ => true | _ => false end.
Definition is_readlines (e : event) : bool :=
  match e with EvReadlines => true | _ => false end.

(** One pass through the loop as it shows in the trace: the call of
    [shell.run] with its argument and, if the pass went through the
    [except KeyboardInterrupt] clause, the call of [raw_input]. *)
Definition iteration_events (it : option string * bool) : list event :=
  EvRun (fst it) :: (if snd it then [EvRawInput exit_prompt] else []).

(** The world in which the supervisor loop starts: the [Shell] constructed on
    the original stream, the handler installed unless [sync_connect]. *)
Definition interactive_start (params : CLIParams) : World :=
  mkWorld [EvShell (shell_args params)] SysStdout
    (if sync_connect params then SIG_DFL else SigusrHandler).

(** The world in which a call ends when the construction of the [Shell] does
    not return. *)
Definition unconstructed (params : CLIParams) : World :=
  mkWorld [EvShell (shell_args params)]
    (if interactive params then SysStdout else Unbuffered SysStdout) SIG_DFL.

(** The connection cannot be established: the constructor of the [Shell]
    raises [IOError]. *)
Definition unreachable_env : Env :=
  scripted_env (Raises IOError) [] (Returns []) [] [].

(** A command interrupted from the keyboard. *)
Definition interrupted_command_env : Env :=
  scripted_env (Returns tt) [Raises KeyboardInterrupt] (Returns []) [] [].

(** An input with an empty line and a line of blanks. *)
Definition blank_lines_env : Env :=
  scripted_env (Returns tt) []
    (Returns [("a" ++ LF)%string; LF; ("  " ++ LF)%string]) [] [].

(** The environment [env] with the outcome of [sys.stdin.readlines()]
    replaced. *)
Definition with_stdin (env : Env) (r : response (list string)) : Env :=
  mkEnv (version env) (Shell_init env) (Shell_onecmd env) (Shell_run env)
    (fun _ => r) (raw_input env).

(** [StateTransition] raised by the prompt loop replaced by a return. *)
Definition forgiving (r : response unit) : response unit :=
  match r with
  | Raises StateTransition => Returns tt
  | _ => r
  end.

(** The environment [env] in which every prompt loop that a reconnection
    ended with [StateTransition] returns instead. *)
Definition without_reconnections (env : Env) : Env :=
  mkEnv (version env) (Shell_init env) (Shell_onecmd env)
    (fun tr arg => forgiving (Shell_run env tr arg))
    (stdin_readlines env) (raw_input env).

(** The second prompt loop fails with [IOError]. *)
Definition prompt_io_error_env : Env :=
  scripted_env (Returns tt) [] (Returns []) [Returns tt; Raises IOError] [].

(** [wrap n s]: the stream [s] inside [n] adapters, as [n] calls of
    [set_unbuffered_mode] leave it. *)
Definition wrap (n : nat) (s : stream) : stream := Nat.iter n Unbuffered s.

(** [n] calls of the file's [flush] in a row, up to the first that raises. *)
Fixpoint flush_times (file : Type) (file_flush : file -> option exn * file)
  (n : nat) : io file :=
  match n with
  | O => fun f => (None, f)
  | S k => io_then file (flush_times file file_flush k) file_flush
  end.

(** A process in which [sigusr_handler] is already installed. *)
Definition armed_world : World := mkWorld [] SysStdout SigusrHandler.


(** Collaborators of the non-interactive modes that only ever return or fail
    with [IOError]. *)
Definition benign (env : Env) : Prop :=
  (forall tr,
      match stdin_readlines env tr with
      | Returns _ | Raises IOError => True
      | _ => False
      end) /\
  (forall tr c,
      match Shell_onecmd env tr c with
      | Returns _ | Raises IOError => True
      | _ => False
      end).

(** SIGUSR2 arrives while the [Shell] is being constructed. *)
Definition early_signal_env : Env :=
  scripted_env Sigusr2 [] (Returns []) [] [].



(** The prompt loop ended by [KeyboardInterrupt]. *)
Definition interrupted (r : response unit) : bool :=
  match r with
  | Raises KeyboardInterrupt => true
  | _ => false
  end.

(** ** Mode selection *)

Lemma eqb_empty_String c s : String.eqb (String c s) EmptyString = false.
Proof. reflexivity. Qed.

Lemma code_mode_spec_mode params : code_mode params = spec_mode params.
Proof.
  unfold code_mode, spec_mode, interactive.
  destruct (run_once params) as [|c s]; simpl.
  - destruct (run_from_stdin params); reflexivity.
  - reflexivity.
Qed.

Lemma interactive_spec_mode params :
  interactive params = true <-> spec_mode params = Interactive.
Proof.
  unfold interactive, spec_mode.
  destruct (run_once params); simpl; destruct (run_from_stdin params); simpl;
    split; (reflexivity || discriminate).
Qed.

Lemma interactive_false_spec_mode params :
  interactive params = false <-> spec_mode params <> Interactive.
Proof.
  rewrite <- interactive_spec_mode.
  destruct (interactive params); split; intro H;
    (reflexivity || discriminate || congruence || (exfalso; now apply H)).
Qed.

Lemma CLI_call_mode_path env fuel params w :
  CLI_call env fuel params w = mode_path (spec_mode params) env fuel params w.
Proof.
  unfold CLI_call, mode_path, spec_mode, async, interactive.
  destruct (run_once params) as [|c s] eqn:Ho; simpl.
  - destruct (run_from_stdin params); simpl.
    + unfold batch_path, batch_block, scripted_path, shell_args_scripted,
        when, bind, get_stdout, set_unbuffered_mode, sys_exit, raise,
        on_IOError; simpl.
      rewrite ?orb_true_r, ?Ho; simpl.
      destruct (extcall _ _ _) as [[[]| | |] ?]; try reflexivity.
      destruct (try_except _ _ _) as [[| | |] ?]; reflexivity.
    + unfold interactive_path, when, bind, get_stdout; simpl.
      rewrite orb_false_r.
      destruct (sync_connect params); reflexivity.
  - unfold oneshot_path, oneshot_block, scripted_path, shell_args_scripted,
      when, bind, get_stdout, set_unbuffered_mode, sys_exit, raise,
      on_IOError; simpl.
    rewrite ?orb_true_r, ?Ho; simpl.
    destruct (extcall _ _ _) as [[[]| | |] ?]; try reflexivity.
    destruct (try_except _ _ _) as [[| | |] ?]; reflexivity.
Qed.

(** C1.  The nested tests of [CLI.__call__] select the mode the specification
    gives (one-shot if [run_once] is non-empty, else batch if
    [run_from_stdin], else interactive), the call executes the statements of
    that mode and of no other, and a non-empty [run_once] selects one-shot
    whatever [run_from_stdin] is. *)
Theorem C1_mode_selection :
  forall params : CLIParams,
    code_mode params = spec_mode params /\
    (forall env fuel w,
        CLI_call env fuel params w
        = mode_path (spec_mode params) env fuel params w) /\
    (run_once params <> EmptyString ->
     forall stdin_flag,
       code_mode (mkCLIParams (connect_timeout params) (run_once params)
                    stdin_flag (sync_connect params) (hosts params)
                    (readonly params)) = OneShot).
Proof.
  intro params; split; [apply code_mode_spec_mode|split].
  - intros; apply CLI_call_mode_path.
  - intros Hne flag. rewrite code_mode_spec_mode. unfold spec_mode; simpl.
    destruct (run_once params); [now elim Hne | reflexivity].
Qed.

Lemma C1_mode_selection_witness :
  run_once params_oneshot <> EmptyString /\
  code_mode params_oneshot = OneShot.
Proof.
  assert (H : run_once params_oneshot <> EmptyString) by discriminate.
  split; [exact H|].
  exact (proj2 (proj2 (C1_mode_selection params_oneshot)) H true).
Defined.

(** ** What the calls leave unchanged *)

Lemma extends_refl w : extends w w.
Proof.
  repeat split. exists []. now rewrite app_nil_r.
Qed.

Lemma extends_trans w1 w2 w3 : extends w1 w2 -> extends w2 w3 -> extends w1 w3.
Proof.
  intros (Ho1 & Hs1 & evs1 & Ht1) (Ho2 & Hs2 & evs2 & Ht2).
  repeat split; try congruence.
  exists (evs1 ++ evs2). now rewrite Ht2, Ht1, app_assoc.
Qed.

Lemma extends_log ev w : extends w (log ev w).
Proof. repeat split. now exists [ev]. Qed.

Lemma extcall_world {A} ev (resp : list event -> response A) w :
  snd (extcall ev resp w) = log ev w.
Proof. unfold extcall. now destruct (resp (trace w)). Qed.

Lemma extcall_extends {A} ev (resp : list event -> response A) w :
  extends w (snd (extcall ev resp w)).
Proof. rewrite extcall_world. apply extends_log. Qed.

Lemma for_each_line_extends env lines w :
  extends w (snd (for_each_line env lines w)).
Proof.
  revert w; induction lines as [|cmd rest IH]; intro w; simpl.
  - apply extends_refl.
  - unfold bind.
    pose proof (extcall_extends (EvOnecmd (rstrip cmd))
                  (fun tr => Shell_onecmd env tr (rstrip cmd)) w) as H.
    destruct (extcall _ _ w) as [[v| | |] w1]; simpl in *; try exact H.
    eapply extends_trans; [exact H | apply IH].
Qed.

(** One pass through the loop body, by the way the prompt loop ends and, after
    a keyboard interrupt, by the way the confirmation is answered. *)
Lemma loop_body_eq env (intro : string) (first : bool) w :
  let arg := if first then Some intro else None in
  let w1 := log (EvRun arg) w in
  let w2 := log (EvRawInput exit_prompt) w1 in
  loop_body env intro first w =
  match Shell_run env (trace w) arg with
  | Returns _ => (Normal Continue, w1)
  | Raises StateTransition => (Normal Continue, w1)
  | Raises KeyboardInterrupt =>
      match raw_input env (trace w1) exit_prompt with
      | Returns done =>
          (Normal (if String.eqb done "y" then Break else Continue), w2)
      | Raises e => (Raise e, w2)
      | Sigusr2 => (deliver_sigusr2 (sigusr2 w), w2)
      end
  | Raises e => (Raise e, w1)
  | Sigusr2 =>
      match sigusr2 w with
      | SigusrHandler => (Normal Continue, w1)
      | SIG_DFL => (Killed, w1)
      end
  end.
Proof.
  intros arg w1 w2. unfold loop_body, try_except, bind, extcall.
  fold arg. destruct (Shell_run env (trace w) arg) as [[]|e|]; simpl.
  - reflexivity.
  - destruct e; try reflexivity.
    subst w2 w1; cbn [log trace].
    destruct (raw_input env (trace w ++ [EvRun arg]) exit_prompt) as [done|e|];
      simpl.
    + destruct (String.eqb done "y"); reflexivity.
    + reflexivity.
    + destruct (sigusr2 w); reflexivity.
  - destruct (sigusr2 w); reflexivity.
Qed.

Lemma loop_body_extends env intro first w :
  extends w (snd (loop_body env intro first w)).
Proof.
  rewrite loop_body_eq.
  assert (H2 : extends w
            (log (EvRawInput exit_prompt)
               (log (EvRun (if first then Some intro else None)) w))).
  { eapply extends_trans; apply extends_log. }
  destruct (Shell_run _ _ _) as [[]|e|]; simpl.
  - apply extends_log.
  - destruct e; simpl; try apply extends_log.
    destruct (raw_input _ _ _) as [done|e|]; simpl; exact H2.
  - destruct (sigusr2 w); apply extends_log.
Qed.

Lemma supervise_extends env intro fuel : forall first w,
  extends w (snd (supervise env intro fuel first w)).
Proof.
  induction fuel as [|fuel IH]; intros first w; simpl.
  - apply extends_refl.
  - unfold bind.
    pose proof (loop_body_extends env intro first w) as H.
    destruct (loop_body env intro first w) as [[[|]| | |] w1]; simpl in *;
      try exact H.
    eapply extends_trans; [exact H | apply IH].
Qed.

(** ** The three paths, call by call *)

Lemma oneshot_block_eq env params w :
  oneshot_block env params w =
  (match Shell_onecmd env (trace w) (run_once params) with
   | Returns r => Normal (if eq_None r then 0%Z else 1%Z)
   | Raises IOError => Normal 1%Z
   | Raises e => Raise e
   | Sigusr2 => deliver_sigusr2 (sigusr2 w)
   end, log (EvOnecmd (run_once params)) w).
Proof.
  unfold oneshot_block, try_except, bind, extcall.
  destruct (Shell_onecmd env (trace w) (run_once params)) as [r|e|]; simpl.
  - reflexivity.
  - destruct e; reflexivity.
  - destruct (sigusr2 w); reflexivity.
Qed.

Lemma oneshot_block_extends env params w :
  extends w (snd (oneshot_block env params w)).
Proof. rewrite oneshot_block_eq. apply extends_log. Qed.

Lemma batch_block_extends env w : extends w (snd (batch_block env w)).
Proof.
  unfold batch_block, try_except, bind.
  pose proof (extcall_extends EvReadlines (stdin_readlines env) w) as H1.
  destruct (extcall EvReadlines (stdin_readlines env) w) as [[lines|e| |] w1];
    simpl in *; try exact H1.
  - pose proof (for_each_line_extends env lines w1) as H2.
    assert (H : extends w (snd (for_each_line env lines w1)))
      by (eapply extends_trans; eassumption).
    destruct (for_each_line env lines w1) as [[[]|e| |] w2]; simpl in *;
      try exact H.
    destruct e; exact H.
  - destruct e; exact H1.
Qed.

(** A non-interactive path ends in [sys.exit(rc)] with the [rc] of its
    guarded block, unless the construction of the [Shell] or the block itself
    ends otherwise. *)
Lemma scripted_path_eq block env params w :
  let out := Unbuffered (sys_stdout w) in
  let args := shell_args_scripted params out in
  let w1 := log (EvShell args) (mkWorld (trace w) out (sigusr2 w)) in
  scripted_path block env params w =
  match Shell_init env (trace w) args with
  | Returns _ =>
      match block w1 with
      | (Normal rc, w2) => (Raise (SystemExit rc), w2)
      | (Raise e, w2) => (Raise e, w2)
      | (Killed, w2) => (Killed, w2)
      | (Unfinished, w2) => (Unfinished, w2)
      end
  | Raises e => (Raise e, w1)
  | Sigusr2 => (deliver_sigusr2 (sigusr2 w), w1)
  end.
Proof.
  intros out args w1.
  unfold scripted_path, bind, set_unbuffered_mode, get_stdout, extcall,
    sys_exit, raise; simpl.
  fold out; fold args.
  destruct (Shell_init env (trace w) args) as [[]|e|]; simpl.
  - fold w1. destruct (block w1) as [[rc|e| |] w2]; reflexivity.
  - reflexivity.
  - destruct (sigusr2 w); reflexivity.
Qed.

Lemma scripted_path_world block env params w :
  (forall w0, extends w0 (snd (block w0))) ->
  let w' := snd (scripted_path block env params w) in
  sys_stdout w' = Unbuffered (sys_stdout w) /\
  sigusr2 w' = sigusr2 w /\
  exists evs,
    trace w' =
    trace w ++
      EvShell (shell_args_scripted params (Unbuffered (sys_stdout w))) :: evs.
Proof.
  intros Hb. rewrite scripted_path_eq.
  set (args := shell_args_scripted params _).
  set (w1 := log (EvShell args) _).
  assert (H1 : sys_stdout w1 = Unbuffered (sys_stdout w) /\
               sigusr2 w1 = sigusr2 w /\
               exists evs, trace w1 = trace w ++ EvShell args :: evs).
  { repeat split. now exists []. }
  assert (H2 : let w2 := snd (block w1) in
               sys_stdout w2 = Unbuffered (sys_stdout w) /\
               sigusr2 w2 = sigusr2 w /\
               exists evs, trace w2 = trace w ++ EvShell args :: evs).
  { destruct (Hb w1) as (Ho & Hs & evs & Ht). simpl.
    rewrite Ho, Hs, Ht. repeat split.
    exists evs. simpl. now rewrite <- app_assoc. }
  destruct (Shell_init env (trace w) args) as [[]|e|]; simpl; try exact H1.
  destruct (block w1) as [[rc|e| |] w2]; exact H2.
Qed.

(** A non-interactive path never returns to its caller, and it does not
    depend on the iteration bound. *)
Lemma scripted_path_no_return block env params w :
  (forall w0, fst (block w0) <> Unfinished) ->
  forall u, fst (scripted_path block env params w) <> Normal u /\
            fst (scripted_path block env params w) <> Unfinished.
Proof.
  intros Hb u. rewrite scripted_path_eq.
  set (args := shell_args_scripted params _).
  set (w1 := log (EvShell args) _).
  destruct (Shell_init env (trace w) args) as [[]|e|]; simpl.
  - specialize (Hb w1).
    destruct (block w1) as [[rc|e| |] w2]; simpl in *;
      split; try discriminate. now elim Hb.
  - split; discriminate.
  - destruct (sigusr2 w); split; discriminate.
Qed.

Lemma interactive_path_world env fuel params w :
  let args := mkShellArgs (hosts params) (connect_timeout params) true
                (sys_stdout w) (negb (sync_connect params)) (readonly params) in
  let w' := snd (interactive_path env fuel params w) in
  sys_stdout w' = sys_stdout w /\
  (exists evs, trace w' = trace w ++ EvShell args :: evs) /\
  sigusr2 w' =
    match Shell_init env (trace w) args with
    | Returns _ => if sync_connect params then sigusr2 w else SigusrHandler
    | _ => sigusr2 w
    end.
Proof.
  intros args.
  unfold interactive_path, bind, get_stdout, extcall; simpl. fold args.
  destruct (Shell_init env (trace w) args) as [[]|e|]; simpl.
  - set (w1 := log (EvShell args) w).
    assert (Hw : exists w2,
               (when (negb (sync_connect params))
                  (signal_SIGUSR2 SigusrHandler)) w1 = (Normal tt, w2) /\
               sys_stdout w2 = sys_stdout w /\ trace w2 = trace w1 /\
               sigusr2 w2 =
                 if sync_connect params then sigusr2 w else SigusrHandler).
    { destruct (sync_connect params); simpl; eexists; repeat split. }
    destruct Hw as (w2 & -> & Ho & Ht & Hs).
    destruct (supervise_extends env (welcome env) fuel true w2)
      as (Ho' & Hs' & evs & Ht').
    rewrite Ho', Hs', Ht', Ho, Hs, Ht. repeat split.
    exists evs. simpl. now rewrite <- app_assoc.
  - repeat split. now exists [].
  - assert (H : forall r : result unit,
               sys_stdout (snd (r, log (EvShell args) w)) = sys_stdout w /\
               (exists evs, trace (snd (r, log (EvShell args) w))
                            = trace w ++ EvShell args :: evs) /\
               sigusr2 (snd (r, log (EvShell args) w)) = sigusr2 w).
    { intro r. repeat split. now exists []. }
    unfold deliver_sigusr2, sigusr_handler.
    destruct (sigusr2 w); [apply (H Killed) | apply (H (Raise StateTransition))].
Qed.

Lemma batch_block_finishes env w : fst (batch_block env w) <> Unfinished.
Proof.
  unfold batch_block, try_except, bind, extcall.
  destruct (stdin_readlines env (trace w)) as [lines|e|]; simpl.
  - generalize (log EvReadlines w). clear w.
    assert (H : forall w, fst (for_each_line env lines w) <> Unfinished).
    { induction lines as [|cmd rest IH]; intro w; simpl; [discriminate|].
      unfold bind, extcall.
      destruct (Shell_onecmd env (trace w) (rstrip cmd)) as [v|e|]; simpl.
      - apply IH.
      - discriminate.
      - destruct (sigusr2 w); discriminate. }
    intro w. specialize (H w).
    destruct (for_each_line env lines w) as [[[]|e| |] w2]; simpl in *;
      try discriminate; try (now elim H).
    destruct e; discriminate.
  - destruct e; discriminate.
  - destruct (sigusr2 w); discriminate.
Qed.

Lemma oneshot_block_finishes env params w :
  fst (oneshot_block env params w) <> Unfinished.
Proof.
  rewrite oneshot_block_eq.
  destruct (Shell_onecmd _ _ _) as [r|e|]; simpl; try discriminate.
  - destruct e; discriminate.
  - destruct (sigusr2 w); discriminate.
Qed.

(** ** Registration of the SIGUSR2 handler *)

Lemma shell_args_interactive params :
  spec_mode params = Interactive ->
  shell_args params =
  mkShellArgs (hosts params) (connect_timeout params) true SysStdout
    (negb (sync_connect params)) (readonly params).
Proof.
  intro Hm. apply interactive_spec_mode in Hm.
  unfold shell_args, async. rewrite Hm, orb_false_r.
  now destruct (sync_connect params).
Qed.

Lemma shell_args_not_interactive params :
  spec_mode params <> Interactive ->
  shell_args params = shell_args_scripted params (Unbuffered SysStdout).
Proof.
  intro Hm. apply interactive_false_spec_mode in Hm.
  unfold shell_args, shell_args_scripted, async.
  now rewrite Hm, orb_true_r.
Qed.

(** The final world of a call, by mode. *)
Lemma CLI_call_world env fuel params :
  let w := snd (CLI_call env fuel params initial_world) in
  (exists evs, trace w = EvShell (shell_args params) :: evs) /\
  match spec_mode params with
  | Interactive =>
      sys_stdout w = SysStdout /\
      sigusr2 w =
        match Shell_init env [] (shell_args params) with
        | Returns _ => if sync_connect params then SIG_DFL else SigusrHandler
        | _ => SIG_DFL
        end
  | _ => sys_stdout w = Unbuffered SysStdout /\ sigusr2 w = SIG_DFL
  end.
Proof.
  rewrite CLI_call_mode_path.
  destruct (spec_mode params) eqn:Hm; simpl.
  - rewrite shell_args_not_interactive by congruence.
    destruct (scripted_path_world (oneshot_block env params) env params
                initial_world (oneshot_block_extends env params))
      as (Ho & Hs & evs & Ht).
    split; [exists evs; exact Ht | split; assumption].
  - rewrite shell_args_not_interactive by congruence.
    destruct (scripted_path_world (batch_block env) env params
                initial_world (batch_block_extends env))
      as (Ho & Hs & evs & Ht).
    split; [exists evs; exact Ht | split; assumption].
  - rewrite shell_args_interactive by assumption.
    destruct (interactive_path_world env fuel params initial_world)
      as (Ho & (evs & Ht) & Hs).
    split; [exists evs; exact Ht | split; assumption].
Qed.

(** C2.  After a call that starts with the default disposition of SIGUSR2,
    [sigusr_handler] is installed only if the mode is interactive and
    [sync_connect] is false; and it is installed, before the first prompt
    loop and whatever the loop does, in every interactive call without
    [sync_connect] whose [Shell] has been constructed.  In one-shot and batch
    mode and under [sync_connect] the disposition stays the default one. *)
Theorem C2_handler_registration :
  forall env fuel params,
    let w := snd (CLI_call env fuel params initial_world) in
    (sigusr2 w = SigusrHandler ->
     spec_mode params = Interactive /\ sync_connect params = false) /\
    (Shell_init env [] (shell_args params) = Returns tt ->
     spec_mode params = Interactive -> sync_connect params = false ->
     sigusr2 w = SigusrHandler) /\
    (spec_mode params <> Interactive \/ sync_connect params = true ->
     sigusr2 w = SIG_DFL).
Proof.
  intros env fuel params w.
  destruct (CLI_call_world env fuel params) as (_ & H). fold w in H.
  destruct (spec_mode params) eqn:Hm.
  - destruct H as (_ & Hs). rewrite Hs.
    repeat split; try discriminate; auto.
  - destruct H as (_ & Hs). rewrite Hs.
    repeat split; try discriminate; auto.
  - destruct H as (_ & Hs). rewrite Hs.
    destruct (Shell_init env [] (shell_args params)) as [[]|e|];
      destruct (sync_connect params);
      repeat split; try discriminate; auto;
      intros [Hc|Hc]; try discriminate; now elim Hc.
Qed.

Lemma C2_handler_registration_witness :
  Shell_init prompt_env [] (shell_args params_interactive) = Returns tt /\
  spec_mode params_interactive = Interactive /\
  sync_connect params_interactive = false /\
  sigusr2 (snd (CLI_call prompt_env 2 params_interactive initial_world))
  = SigusrHandler.
Proof.
  split; [reflexivity | split; [reflexivity | split; [reflexivity | ] ] ].
  apply (proj1 (proj2 (C2_handler_registration prompt_env 2 params_interactive)));
    reflexivity.
Defined.

(** ** The welcome banner *)

Lemma run_args_app tr1 tr2 : run_args (tr1 ++ tr2) = run_args tr1 ++ run_args tr2.
Proof.
  induction tr1 as [|e tr1 IH]; simpl; [reflexivity|].
  destruct e; simpl; now rewrite IH.
Qed.

Lemma run_args_log ev w :
  run_args (trace (log ev w)) = run_args (trace w) ++ run_args [ev].
Proof. unfold log; simpl. apply run_args_app. Qed.

(** Every pass through the loop body calls [shell.run] once, with the banner
    exactly when [first] holds. *)
Lemma loop_body_run_args env intro first w :
  run_args (trace (snd (loop_body env intro first w)))
  = run_args (trace w) ++ [if first then Some intro else None].
Proof.
  rewrite loop_body_eq.
  set (arg := if first then Some intro else None).
  assert (H1 : run_args (trace (log (EvRun arg) w)) = run_args (trace w) ++ [arg])
    by apply run_args_log.
  assert (H2 : run_args (trace (log (EvRawInput exit_prompt) (log (EvRun arg) w)))
               = run_args (trace w) ++ [arg]).
  { rewrite run_args_log, H1. simpl. now rewrite app_nil_r. }
  destruct (Shell_run env (trace w) arg) as [[]|e|]; simpl.
  - exact H1.
  - destruct e; simpl; try exact H1.
    destruct (raw_input _ _ _); exact H2.
  - destruct (sigusr2 w); exact H1.
Qed.

(** After the first pass the loop only ever calls [shell.run(None)]. *)
Lemma supervise_later_run_args env intro fuel : forall w,
  exists k,
    run_args (trace (snd (supervise env intro fuel false w)))
    = run_args (trace w) ++ repeat None k.
Proof.
  induction fuel as [|fuel IH]; intro w; simpl.
  - exists 0. simpl. now rewrite app_nil_r.
  - unfold bind.
    pose proof (loop_body_run_args env intro false w) as Hb.
    destruct (loop_body env intro false w) as [[[|]| | |] w1]; simpl in *;
      try (exists 1; exact Hb).
    destruct (IH w1) as (k & Hk). exists (S k).
    rewrite Hk, Hb. now rewrite <- app_assoc.
Qed.

Lemma supervise_first_run_args env intro fuel w :
  exists k,
    run_args (trace (snd (supervise env intro fuel true w)))
    = run_args (trace w) ++
        match fuel with O => [] | S _ => Some intro :: repeat None k end.
Proof.
  destruct fuel as [|fuel]; simpl.
  - exists 0. now rewrite app_nil_r.
  - unfold bind.
    pose proof (loop_body_run_args env intro true w) as Hb.
    destruct (loop_body env intro true w) as [[[|]| | |] w1]; simpl in *;
      try (exists 0; exact Hb).
    destruct (supervise_later_run_args env intro fuel w1) as (k & Hk).
    exists k. rewrite Hk, Hb. now rewrite <- app_assoc.
Qed.

(** The non-interactive paths never call [shell.run]. *)
Lemma for_each_line_run_args env lines : forall w,
  run_args (trace (snd (for_each_line env lines w))) = run_args (trace w).
Proof.
  induction lines as [|cmd rest IH]; intro w; simpl; [reflexivity|].
  unfold bind.
  pose proof (extcall_world (EvOnecmd (rstrip cmd))
                (fun tr => Shell_onecmd env tr (rstrip cmd)) w) as Hw.
  assert (Hl : run_args (trace (log (EvOnecmd (rstrip cmd)) w))
               = run_args (trace w)).
  { rewrite run_args_log. simpl. now rewrite app_nil_r. }
  destruct (extcall _ _ w) as [[v|e| |] w1]; simpl in *; subst w1;
    try exact Hl.
  now rewrite IH.
Qed.

Lemma batch_block_run_args env w :
  run_args (trace (snd (batch_block env w))) = run_args (trace w).
Proof.
  unfold batch_block, try_except, bind.
  pose proof (extcall_world EvReadlines (stdin_readlines env) w) as Hw.
  assert (Hl : run_args (trace (log EvReadlines w)) = run_args (trace w)).
  { rewrite run_args_log. simpl. now rewrite app_nil_r. }
  destruct (extcall EvReadlines _ w) as [[lines|e| |] w1]; simpl in *;
    subst w1; try exact Hl.
  - pose proof (for_each_line_run_args env lines (log EvReadlines w)) as Hf.
    pose proof (eq_trans Hf Hl) as Hf'. clear Hf.
    destruct (for_each_line env lines _) as [[[]|e| |] w2]; simpl in *;
      try exact Hf'.
    destruct e; exact Hf'.
  - destruct e; exact Hl.
Qed.

Lemma oneshot_block_run_args env params w :
  run_args (trace (snd (oneshot_block env params w))) = run_args (trace w).
Proof.
  rewrite oneshot_block_eq. cbn [snd].
  rewrite run_args_log. simpl. now rewrite app_nil_r.
Qed.

Lemma scripted_path_run_args block env params :
  (forall w0, run_args (trace (snd (block w0))) = run_args (trace w0)) ->
  run_args (trace (snd (scripted_path block env params initial_world))) = [].
Proof.
  intro Hb. rewrite scripted_path_eq.
  set (args := shell_args_scripted params _).
  set (w1 := log (EvShell args) _).
  assert (H1 : run_args (trace w1) = []) by reflexivity.
  specialize (Hb w1). rewrite H1 in Hb.
  destruct (Shell_init env _ args) as [[]|e|]; simpl; try exact H1.
  destruct (block w1) as [[rc|e| |] w2]; exact Hb.
Qed.

Lemma CLI_call_run_args env fuel params :
  exists k,
    run_args (trace (snd (CLI_call env fuel params initial_world)))
    = Some (welcome env) :: repeat None k
    \/ run_args (trace (snd (CLI_call env fuel params initial_world))) = [].
Proof.
  rewrite CLI_call_mode_path.
  destruct (spec_mode params); simpl.
  - exists 0. right.
    apply scripted_path_run_args, oneshot_block_run_args.
  - exists 0. right.
    apply scripted_path_run_args, batch_block_run_args.
  - unfold interactive_path, bind, get_stdout, extcall; simpl.
    destruct (Shell_init env [] _) as [[]|e|]; simpl;
      try (exists 0; right; reflexivity).
    match goal with
    | |- context [when ?b ?m ?w0] =>
        assert (Hw : exists w1, when b m w0 = (Normal tt, w1) /\
                                run_args (trace w1) = [])
    end.
    { destruct (sync_connect params); simpl; eexists; split; reflexivity. }
    destruct Hw as (w1 & -> & Hr).
    destruct (supervise_first_run_args env (welcome env) fuel w1) as (k & Hk).
    rewrite Hr in Hk. simpl in Hk.
    exists k. destruct fuel; [right | left]; exact Hk.
Qed.

Lemma CLI_call_first_run env fuel params :
  spec_mode params = Interactive ->
  Shell_init env [] (shell_args params) = Returns tt ->
  exists k,
    run_args (trace (snd (CLI_call env (S fuel) params initial_world)))
    = Some (welcome env) :: repeat None k.
Proof.
  intros Hm Hs. rewrite CLI_call_mode_path, Hm. simpl.
  rewrite shell_args_interactive in Hs by assumption.
  unfold interactive_path, bind, get_stdout, extcall.
  cbn [initial_world trace sys_stdout sigusr2]. rewrite Hs.
  match goal with
  | |- context [when ?b ?m ?w0] =>
      assert (Hw : exists w1, when b m w0 = (Normal tt, w1) /\
                              run_args (trace w1) = [])
  end.
  { destruct (sync_connect params); simpl; eexists; split; reflexivity. }
  destruct Hw as (w1 & -> & Hr).
  destruct (supervise_first_run_args env (welcome env) (S fuel) w1) as (k & Hk).
  rewrite Hr in Hk. exists k. exact Hk.
Qed.

Lemma nth_error_banner_then_none (b : string) k i a :
  nth_error (Some b :: repeat None k) i = Some a ->
  a = if Nat.eqb i 0 then Some b else None.
Proof.
  destruct i as [|i]; simpl.
  - now intros [= <-].
  - intro H. apply nth_error_In, repeat_spec in H. exact H.
Qed.

(** C3.  The [i]-th call of [shell.run] made by a call of [CLI.__call__]
    receives the welcome banner if [i = 0] and [None] otherwise, whatever the
    collaborators do (reconnections, interrupts, declined confirmations) and
    however long the loop runs; and an interactive call whose [Shell] has been
    constructed does pass the banner, with the version in it, on the first
    iteration. *)
Theorem C3_banner_first_iteration_only :
  forall env fuel params,
    let calls :=
      run_args (trace (snd (CLI_call env fuel params initial_world))) in
    (forall i a,
        nth_error calls i = Some a ->
        a = if Nat.eqb i 0 then Some (welcome env) else None) /\
    (spec_mode params = Interactive ->
     Shell_init env [] (shell_args params) = Returns tt ->
     (0 < fuel)%nat ->
     nth_error calls 0
     = Some (Some ("Welcome to zk-shell (" ++ version env ++ ")")%string)).
Proof.
  intros env fuel params calls. split.
  - intros i a H.
    destruct (CLI_call_run_args env fuel params) as (k & [Hk|Hk]);
      fold calls in Hk; rewrite Hk in H.
    + eapply nth_error_banner_then_none; eassumption.
    + now destruct i.
  - intros Hm Hs Hf. destruct fuel as [|fuel]; [inversion Hf|].
    destruct (CLI_call_first_run env fuel params Hm Hs) as (k & Hk).
    subst calls. rewrite Hk. reflexivity.
Qed.

Lemma C3_banner_first_iteration_only_witness :
  nth_error
    (run_args
       (trace (snd (CLI_call prompt_env 9 params_interactive initial_world))))
    3 = Some None /\
  @None string = (if Nat.eqb 3 0 then Some (welcome prompt_env) else None).
Proof.
  assert (H : nth_error
                (run_args
                   (trace (snd (CLI_call prompt_env 9 params_interactive
                                  initial_world)))) 3 = Some None)
    by reflexivity.
  split; [exact H|].
  exact (proj1 (C3_banner_first_iteration_only prompt_env 9 params_interactive)
           3 None H).
Defined.

(** ** Keyboard interrupts and the exit confirmation *)

(** [supervise], one iteration unfolded. *)
Lemma supervise_S env intro fuel first w :
  supervise env intro (S fuel) first w =
  match loop_body env intro first w with
  | (Normal Break, w') => (Normal tt, w')
  | (Normal Continue, w') => supervise env intro fuel false w'
  | (Raise e, w') => (Raise e, w')
  | (Killed, w') => (Killed, w')
  | (Unfinished, w') => (Unfinished, w')
  end.
Proof.
  simpl. unfold bind.
  destruct (loop_body env intro first w) as [[[|]| | |] w']; reflexivity.
Qed.












(** ** Reconnection signals *)

(** SIGUSR2 while the prompt loop is active, handler installed: the loop
    restarts, without confirmation prompt. *)
Lemma supervise_reconnect_in_run env (intro : string) fuel (first : bool) w :
  let arg := if first then Some intro else None in
  sigusr2 w = SigusrHandler ->
  Shell_run env (trace w) arg = Sigusr2 ->
  supervise env intro (S fuel) first w
  = supervise env intro fuel false (log (EvRun arg) w).
Proof.
  intros arg Hh Hrun. rewrite supervise_S, loop_body_eq. fold arg.
  now rewrite Hrun, Hh.
Qed.

(** SIGUSR2 while the confirmation is being read, handler installed:
    [StateTransition] leaves the loop. *)
Lemma supervise_reconnect_in_confirmation env (intro : string) fuel
  (first : bool) w :
  let arg := if first then Some intro else None in
  sigusr2 w = SigusrHandler ->
  Shell_run env (trace w) arg = Raises KeyboardInterrupt ->
  raw_input env (trace w ++ [EvRun arg]) exit_prompt = Sigusr2 ->
  supervise env intro (S fuel) first w
  = (Raise StateTransition,
     log (EvRawInput exit_prompt) (log (EvRun arg) w)).
Proof.
  intros arg Hh Hrun Hans. rewrite supervise_S, loop_body_eq. fold arg.
  rewrite Hrun. cbn [log trace]. now rewrite Hans, Hh.
Qed.

(** C5.  An interactive call without [sync_connect], hence with
    [sigusr_handler] installed: the prompt loop is interrupted from the
    keyboard and SIGUSR2 is delivered while the confirmation is read.  The
    handler raises [StateTransition] outside the [try] statement that guards
    [shell.run], and the exception leaves [CLI.__call__]: the call neither
    restarts the prompt loop nor returns. *)
Theorem C5_state_transition_escapes_confirmation :
  CLI_call reconnect_while_confirming_env 5 params_interactive initial_world
  = (Raise StateTransition,
     mkWorld
       [EvShell (shell_args params_interactive);
        EvRun (Some (welcome reconnect_while_confirming_env));
        EvRawInput exit_prompt]
       SysStdout SigusrHandler) /\
  exit_code
    (fst (CLI_call reconnect_while_confirming_env 5 params_interactive
            initial_world)) = None.
Proof. split; reflexivity. Qed.

(** ** The non-interactive modes, from a constructed [Shell] *)

Lemma logs_log ev evs w : logs evs (log ev w) = logs (ev :: evs) w.
Proof. unfold logs, log; simpl. now rewrite <- app_assoc. Qed.

Lemma logs_nil w : logs [] w = w.
Proof. destruct w; unfold logs; simpl. now rewrite app_nil_r. Qed.

Lemma cmd_args_onecmds cmds : cmd_args (map EvOnecmd cmds) = cmds.
Proof. induction cmds; simpl; congruence. Qed.

Lemma for_each_line_all_return env lines : forall w,
  all_return env (trace w) (map rstrip lines) ->
  for_each_line env lines w
  = (Normal tt, logs (map EvOnecmd (map rstrip lines)) w).
Proof.
  induction lines as [|cmd rest IH]; intros w H; simpl.
  - now rewrite logs_nil.
  - destruct H as ((v & Hv) & Hrest).
    unfold bind, extcall. rewrite Hv.
    rewrite IH by exact Hrest. now rewrite logs_log.
Qed.

Lemma for_each_line_raises env pre line post e : forall w,
  all_return env (trace w) (map rstrip pre) ->
  Shell_onecmd env (trace w ++ map EvOnecmd (map rstrip pre)) (rstrip line)
  = Raises e ->
  for_each_line env (pre ++ line :: post) w
  = (Raise e, logs (map EvOnecmd (map rstrip (pre ++ [line]))) w).
Proof.
  induction pre as [|cmd pre IH]; intros w Hpre He; simpl in *.
  - rewrite app_nil_r in He. unfold bind, extcall. now rewrite He.
  - destruct Hpre as ((v & Hv) & Hrest).
    unfold bind, extcall. rewrite Hv.
    rewrite IH; [now rewrite logs_log | exact Hrest |].
    simpl. now rewrite <- app_assoc.
Qed.

(** The way the loop over the lines ends: all commands returned, or the
    command of some line did not, and the lines after it were not executed. *)
Lemma for_each_line_inv env lines : forall w,
  (all_return env (trace w) (map rstrip lines) /\
   for_each_line env lines w
   = (Normal tt, logs (map EvOnecmd (map rstrip lines)) w)) \/
  (exists pre line post,
      lines = pre ++ line :: post /\
      all_return env (trace w) (map rstrip pre) /\
      snd (for_each_line env lines w)
      = logs (map EvOnecmd (map rstrip (pre ++ [line]))) w /\
      match Shell_onecmd env (trace w ++ map EvOnecmd (map rstrip pre))
              (rstrip line) with
      | Returns _ => False
      | Raises e => fst (for_each_line env lines w) = Raise e
      | Sigusr2 =>
          fst (for_each_line env lines w) = deliver_sigusr2 (sigusr2 w)
      end).
Proof.
  induction lines as [|cmd rest IH]; intro w.
  - left. split; [exact I | simpl; now rewrite logs_nil].
  - simpl. unfold bind, extcall.
    destruct (Shell_onecmd env (trace w) (rstrip cmd)) as [v|e|] eqn:Hc.
    + destruct (IH (log (EvOnecmd (rstrip cmd)) w))
        as [(Hall & Heq) | (pre & line & post & Hl & Hall & Hw & Hr)].
      * left. split.
        -- split; [now exists v | exact Hall].
        -- rewrite Heq. now rewrite logs_log.
      * right. exists (cmd :: pre), line, post. subst rest.
        split; [reflexivity|]. split.
        -- split; [now exists v | exact Hall].
        -- split.
           ++ rewrite Hw. now rewrite logs_log.
           ++ simpl in Hr. simpl. rewrite <- app_assoc in Hr. exact Hr.
    + right. exists [], cmd, rest. simpl. rewrite app_nil_r, Hc.
      repeat split.
    + right. exists [], cmd, rest. simpl. rewrite app_nil_r, Hc.
      repeat split; destruct (sigusr2 w); reflexivity.
Qed.

Lemma CLI_call_scripted env fuel params :
  spec_mode params <> Interactive ->
  Shell_init env [] (shell_args params) = Returns tt ->
  CLI_call env fuel params initial_world =
  match
    match spec_mode params with
    | OneShot => oneshot_block env params (scripted_start params)
    | _ => batch_block env (scripted_start params)
    end
  with
  | (Normal rc, w) => (Raise (SystemExit rc), w)
  | (Raise e, w) => (Raise e, w)
  | (Killed, w) => (Killed, w)
  | (Unfinished, w) => (Unfinished, w)
  end.
Proof.
  intros Hm Hs. rewrite CLI_call_mode_path.
  rewrite shell_args_not_interactive in Hs by assumption.
  unfold scripted_start. rewrite shell_args_not_interactive by assumption.
  destruct (spec_mode params); [| |now elim Hm]; simpl;
    unfold oneshot_path, batch_path; rewrite scripted_path_eq;
    cbn [initial_world trace sys_stdout sigusr2]; rewrite Hs; reflexivity.
Qed.

Lemma batch_block_eq env w :
  batch_block env w =
  match stdin_readlines env (trace w) with
  | Returns lines =>
      match for_each_line env lines (log EvReadlines w) with
      | (Normal _, w') => (Normal 0%Z, w')
      | (Raise IOError, w') => (Normal 1%Z, w')
      | (Raise e, w') => (Raise e, w')
      | (Killed, w') => (Killed, w')
      | (Unfinished, w') => (Unfinished, w')
      end
  | Raises IOError => (Normal 1%Z, log EvReadlines w)
  | Raises e => (Raise e, log EvReadlines w)
  | Sigusr2 => (deliver_sigusr2 (sigusr2 w), log EvReadlines w)
  end.
Proof.
  unfold batch_block, try_except, bind, extcall.
  destruct (stdin_readlines env (trace w)) as [lines|e|]; simpl.
  - destruct (for_each_line env lines (log EvReadlines w))
      as [[[]|e| |] w']; simpl; try reflexivity.
    destruct e; reflexivity.
  - destruct e; reflexivity.
  - destruct (sigusr2 w); reflexivity.
Qed.

(** ** One-shot mode *)

(** C7.  In one-shot mode, with the [Shell] constructed, the only call made
    is [shell.onecmd(run_once)]; the call of [CLI.__call__] ends in
    [sys.exit(0)] if it returns [None], in [sys.exit(1)] if it returns
    anything else, and in [sys.exit(1)] if it raises [IOError].  In one-shot
    and in batch mode the call never returns to its caller, whatever the
    collaborators do, and it does not run into the iteration bound. *)
Theorem C7_oneshot_exit_code :
  (forall env fuel params,
      spec_mode params = OneShot ->
      Shell_init env [] (shell_args params) = Returns tt ->
      let resp :=
        Shell_onecmd env [EvShell (shell_args params)] (run_once params) in
      let out := CLI_call env fuel params initial_world in
      trace (snd out)
      = [EvShell (shell_args params); EvOnecmd (run_once params)] /\
      (resp = Returns PyNone -> fst out = Raise (SystemExit 0)) /\
      (forall v, resp = Returns v -> v <> PyNone ->
                 fst out = Raise (SystemExit 1)) /\
      (resp = Raises IOError -> fst out = Raise (SystemExit 1))) /\
  (forall env fuel params u,
      spec_mode params <> Interactive ->
      fst (CLI_call env fuel params initial_world) <> Normal u /\
      fst (CLI_call env fuel params initial_world) <> Unfinished).
Proof.
  split.
  - intros env fuel params Hm Hs resp out.
    assert (Hout : out =
              match oneshot_block env params (scripted_start params) with
              | (Normal rc, w) => (Raise (SystemExit rc), w)
              | (Raise e, w) => (Raise e, w)
              | (Killed, w) => (Killed, w)
              | (Unfinished, w) => (Unfinished, w)
              end).
    { subst out. rewrite CLI_call_scripted by (congruence || assumption).
      now rewrite Hm. }
    rewrite oneshot_block_eq in Hout.
    cbn [scripted_start trace sigusr2] in Hout. fold resp in Hout.
    rewrite Hout. clear Hout.
    split; [|split; [|split]].
    + destruct resp as [r|e|]; [reflexivity | destruct e; reflexivity
                               | reflexivity].
    + intros ->. reflexivity.
    + intros v -> Hv. destruct v; [now elim Hv | reflexivity ..].
    + intros ->. reflexivity.
  - intros env fuel params u Hm. rewrite CLI_call_mode_path.
    destruct (spec_mode params); [| |now elim Hm]; simpl.
    + apply scripted_path_no_return, oneshot_block_finishes.
    + apply scripted_path_no_return, batch_block_finishes.
Qed.

Lemma C7_oneshot_exit_code_witness :
  spec_mode params_oneshot = OneShot /\
  Shell_init quit_env [] (shell_args params_oneshot) = Returns tt /\
  Shell_onecmd quit_env [EvShell (shell_args params_oneshot)]
    (run_once params_oneshot) = Returns PyNone /\
  fst (CLI_call quit_env 0 params_oneshot initial_world)
  = Raise (SystemExit 0).
Proof.
  split; [reflexivity | split; [reflexivity | split; [reflexivity|]]].
  apply (proj1 (proj2 (proj1 C7_oneshot_exit_code quit_env 0%nat params_oneshot
                         eq_refl eq_refl))).
  reflexivity.
Defined.

(** ** Batch mode *)

(** The calls of a batch run: the [Shell] constructor, then one
    [sys.stdin.readlines()], then [shell.onecmd] on the stripped lines, in
    order, up to the first command that does not return. *)
Lemma CLI_call_batch_shape env fuel params :
  spec_mode params = Batch ->
  let tr := trace (snd (CLI_call env fuel params initial_world)) in
  let tr0 := [EvShell (shell_args params)] in
  (tr = tr0 /\ Shell_init env [] (shell_args params) <> Returns tt) \/
  (tr = tr0 ++ [EvReadlines] /\
   forall lines, stdin_readlines env tr0 <> Returns lines) \/
  exists lines k,
    stdin_readlines env tr0 = Returns lines /\
    tr = tr0 ++ EvReadlines :: map EvOnecmd (map rstrip (firstn k lines)).
Proof.
  intros Hm tr tr0. subst tr. rewrite CLI_call_mode_path, Hm. simpl.
  unfold batch_path. rewrite scripted_path_eq.
  cbn [initial_world trace sys_stdout sigusr2].
  assert (Ha : shell_args_scripted params (Unbuffered SysStdout)
               = shell_args params)
    by (symmetry; apply shell_args_not_interactive; congruence).
  rewrite Ha.
  destruct (Shell_init env [] (shell_args params)) as [[]|e|];
    try (left; split; [reflexivity | discriminate]).
  right.
  set (w1 := log (EvShell (shell_args params))
               (mkWorld [] (Unbuffered SysStdout) SIG_DFL)).
  assert (Hgoal :
            (trace (snd (batch_block env w1)) = tr0 ++ [EvReadlines] /\
             forall lines, stdin_readlines env tr0 <> Returns lines) \/
            exists lines k,
              stdin_readlines env tr0 = Returns lines /\
              trace (snd (batch_block env w1))
              = tr0 ++ EvReadlines
                  :: map EvOnecmd (map rstrip (firstn k lines))).
  { rewrite batch_block_eq. change (trace w1) with tr0.
    destruct (stdin_readlines env tr0) as [lines|e|] eqn:Hr.
    - right. exists lines.
      destruct (for_each_line_inv env lines (log EvReadlines w1))
        as [(_ & Heq) | (pre & line & post & Hl & _ & Hw & _)].
      + exists (length lines). split; [reflexivity|].
        rewrite Heq, firstn_all. reflexivity.
      + exists (S (length pre)). split; [reflexivity|].
        assert (Hf : firstn (S (length pre)) lines = pre ++ [line]).
        { subst lines.
          replace (S (length pre)) with (length pre + 1)%nat by lia.
          now rewrite firstn_app_2. }
        rewrite Hf.
        destruct (for_each_line env lines (log EvReadlines w1))
          as [[[]|e| |] w']; simpl in Hw; subst w';
          try (destruct e); reflexivity.
    - left. split; [destruct e; reflexivity | discriminate].
    - left. split; [reflexivity | discriminate]. }
  destruct (batch_block env w1) as [[rc|e| |] w2]; exact Hgoal.
Qed.

Lemma CLI_call_batch env fuel params :
  spec_mode params = Batch ->
  Shell_init env [] (shell_args params) = Returns tt ->
  CLI_call env fuel params initial_world =
  match batch_block env (scripted_start params) with
  | (Normal rc, w) => (Raise (SystemExit rc), w)
  | (Raise e, w) => (Raise e, w)
  | (Killed, w) => (Killed, w)
  | (Unfinished, w) => (Unfinished, w)
  end.
Proof.
  intros Hm Hs. rewrite CLI_call_scripted by (congruence || assumption).
  now rewrite Hm.
Qed.

Lemma cmd_args_scripted_start params cmds :
  cmd_args
    (trace (logs (map EvOnecmd cmds) (log EvReadlines (scripted_start params))))
  = cmds.
Proof. simpl. apply cmd_args_onecmds. Qed.

(** C6, as stated, fails: a batch run whose input is read without any I/O
    failure ends in [sys.exit(1)], because the [except IOError] clause also
    guards the calls of [shell.onecmd]. *)
Lemma C6_exit_code_not_only_read_failure :
  stdin_readlines broken_pipe_env [EvShell (shell_args params_batch)]
  = Returns [("a" ++ LF)%string; ("b" ++ LF)%string; ("c" ++ LF)%string] /\
  CLI_call broken_pipe_env 0 params_batch initial_world
  = (Raise (SystemExit 1),
     mkWorld [EvShell (shell_args params_batch); EvReadlines;
              EvOnecmd "a"; EvOnecmd "b"]
       (Unbuffered SysStdout) SIG_DFL) /\
  ~ (forall env fuel params,
        spec_mode params = Batch ->
        Shell_init env [] (shell_args params) = Returns tt ->
        fst (CLI_call env fuel params initial_world) = Raise (SystemExit 1) ->
        stdin_readlines env [EvShell (shell_args params)] = Raises IOError).
Proof.
  split; [reflexivity | split; [reflexivity|]].
  intro H.
  specialize (H broken_pipe_env 0%nat params_batch eq_refl eq_refl eq_refl).
  discriminate H.
Qed.

(** C6, amended.  In batch mode, with the [Shell] constructed, the values
    returned by [shell.onecmd] are never inspected: the call ends in
    [sys.exit(1)] when [IOError] is raised inside the guarded block, either
    by [sys.stdin.readlines()] (no command is executed) or by the execution
    of a command (the lines after it are not executed), and in [sys.exit(0)]
    when the input is read and every command returns, whatever it returns. *)
Theorem C6_batch_exit_code :
  forall env fuel params,
    spec_mode params = Batch ->
    Shell_init env [] (shell_args params) = Returns tt ->
    let out := CLI_call env fuel params initial_world in
    let tr0 := [EvShell (shell_args params)] in
    (stdin_readlines env tr0 = Raises IOError ->
     fst out = Raise (SystemExit 1) /\ cmd_args (trace (snd out)) = []) /\
    (forall lines,
        stdin_readlines env tr0 = Returns lines ->
        (all_return env (tr0 ++ [EvReadlines]) (map rstrip lines) ->
         fst out = Raise (SystemExit 0) /\
         cmd_args (trace (snd out)) = map rstrip lines) /\
        (forall pre line post,
            lines = pre ++ line :: post ->
            all_return env (tr0 ++ [EvReadlines]) (map rstrip pre) ->
            Shell_onecmd env
              (tr0 ++ EvReadlines :: map EvOnecmd (map rstrip pre))
              (rstrip line) = Raises IOError ->
            fst out = Raise (SystemExit 1) /\
            cmd_args (trace (snd out)) = map rstrip (pre ++ [line]))).
Proof.
  intros env fuel params Hm Hs out tr0.
  assert (Hout : out =
            match batch_block env (scripted_start params) with
            | (Normal rc, w) => (Raise (SystemExit rc), w)
            | (Raise e, w) => (Raise e, w)
            | (Killed, w) => (Killed, w)
            | (Unfinished, w) => (Unfinished, w)
            end) by (subst out; now apply CLI_call_batch).
  rewrite batch_block_eq in Hout.
  change (trace (scripted_start params)) with tr0 in Hout.
  split.
  - intro Hr. rewrite Hr in Hout. rewrite Hout. split; reflexivity.
  - intros lines Hr. rewrite Hr in Hout. split.
    + intro Hall.
      rewrite (for_each_line_all_return env lines
                 (log EvReadlines (scripted_start params)) Hall) in Hout.
      rewrite Hout. split; [reflexivity|].
      cbn [snd]. apply cmd_args_scripted_start.
    + intros pre line post -> Hall He.
      rewrite (for_each_line_raises env pre line post IOError
                 (log EvReadlines (scripted_start params))) in Hout.
      * rewrite Hout. split; [reflexivity|].
        cbn [snd]. apply cmd_args_scripted_start.
      * exact Hall.
      * simpl. simpl in He. exact He.
Qed.

Lemma C6_batch_exit_code_witness :
  spec_mode params_batch = Batch /\
  Shell_init broken_pipe_env [] (shell_args params_batch) = Returns tt /\
  fst (CLI_call broken_pipe_env 0 params_batch initial_world)
  = Raise (SystemExit 1) /\
  cmd_args (trace (snd (CLI_call broken_pipe_env 0 params_batch initial_world)))
  = map rstrip ([("a" ++ LF)%string] ++ [("b" ++ LF)%string]).
Proof.
  split; [reflexivity | split; [reflexivity|]].
  refine (proj2 (proj2 (C6_batch_exit_code broken_pipe_env 0%nat params_batch
                          eq_refl eq_refl) _ eq_refl)
            [("a" ++ LF)%string] ("b" ++ LF)%string [("c" ++ LF)%string]
            eq_refl _ eq_refl).
  simpl. split; [|exact I]. now exists (PyInt 0).
Defined.

(** C10.  In batch mode, with the [Shell] constructed, the standard input is
    read by one call of [readlines] that comes before every call of
    [shell.onecmd]: the calls are the constructor, [readlines], then only
    commands, which are stripped lines of the complete list that [readlines]
    returned.  If [readlines] does not return, no command is executed, and
    if it raises [IOError] the call ends in [sys.exit(1)]. *)
Theorem C10_input_read_before_commands :
  forall env fuel params,
    spec_mode params = Batch ->
    Shell_init env [] (shell_args params) = Returns tt ->
    let out := CLI_call env fuel params initial_world in
    let tr0 := [EvShell (shell_args params)] in
    (exists cmds,
        trace (snd out) = tr0 ++ EvReadlines :: map EvOnecmd cmds /\
        (forall lines,
            stdin_readlines env tr0 = Returns lines ->
            exists k, cmds = map rstrip (firstn k lines)) /\
        ((forall lines, stdin_readlines env tr0 <> Returns lines) ->
         cmds = [])) /\
    (stdin_readlines env tr0 = Raises IOError ->
     fst out = Raise (SystemExit 1) /\
     trace (snd out) = tr0 ++ [EvReadlines]).
Proof.
  intros env fuel params Hm Hs out tr0. split.
  - destruct (CLI_call_batch_shape env fuel params Hm)
      as [(H & Hn) | [(H & Hn) | (lines & k & Hr & H)]]; fold out in H.
    + now elim Hn.
    + exists []. split; [exact H | split].
      * intros lines Hr. now elim (Hn lines).
      * reflexivity.
    + exists (map rstrip (firstn k lines)). split; [exact H | split].
      * intros lines' Hr'. unfold tr0 in Hr'. rewrite Hr in Hr'.
        injection Hr' as <-.
        now exists k.
      * intro Hn. now elim (Hn lines).
  - intro Hr.
    subst out. rewrite CLI_call_batch by assumption.
    rewrite batch_block_eq.
    change (trace (scripted_start params)) with tr0. rewrite Hr.
    split; reflexivity.
Qed.

Lemma C10_input_read_before_commands_witness :
  spec_mode params_batch = Batch /\
  Shell_init unreadable_stdin_env [] (shell_args params_batch) = Returns tt /\
  stdin_readlines unreadable_stdin_env [EvShell (shell_args params_batch)]
  = Raises IOError /\
  fst (CLI_call unreadable_stdin_env 0 params_batch initial_world)
  = Raise (SystemExit 1) /\
  trace (snd (CLI_call unreadable_stdin_env 0 params_batch initial_world))
  = [EvShell (shell_args params_batch)] ++ [EvReadlines].
Proof.
  split; [reflexivity | split; [reflexivity | split; [reflexivity|]]].
  apply (proj2 (C10_input_read_before_commands unreadable_stdin_env 0%nat
                  params_batch eq_refl eq_refl)).
  reflexivity.
Defined.

(** ** What [rstrip] removes *)

Lemma rstrip_all_space ws : all_space ws = true -> rstrip ws = EmptyString.
Proof.
  induction ws as [|c ws IH]; simpl; [reflexivity|].
  intro H. apply andb_true_iff in H as (Hc & Hws).
  now rewrite IH, Hc.
Qed.

Lemma rstrip_append p ws :
  all_space ws = true -> rstrip (p ++ ws)%string = rstrip p.
Proof.
  intro Hws. induction p as [|c p IH]; simpl.
  - now apply rstrip_all_space.
  - now rewrite IH.
Qed.

Lemma rstrip_fixed p : ends_in_space p = false -> rstrip p = p.
Proof.
  induction p as [|c p IH]; [reflexivity|].
  simpl. destruct p as [|c' p'].
  - simpl. now intros ->.
  - intro H. rewrite (IH H). reflexivity.
Qed.

Lemma rstrip_decompose s :
  exists ws, s = (rstrip s ++ ws)%string /\ all_space ws = true.
Proof.
  induction s as [|c s (ws & Hs & Hws)]; simpl.
  - now exists EmptyString.
  - destruct (rstrip s) as [|c' r'] eqn:Hr.
    + simpl in Hs. subst ws.
      destruct (isspace c) eqn:Hc.
      * exists (String c s). simpl. now rewrite Hc, Hws.
      * exists s. now split.
    + exists ws. split; [|exact Hws]. simpl. simpl in Hs. now rewrite <- Hs.
Qed.

Lemma rstrip_no_trailing_space s : ends_in_space (rstrip s) = false.
Proof.
  induction s as [|c s IH]; simpl; [reflexivity|].
  destruct (rstrip s) as [|c' r'].
  - destruct (isspace c) eqn:Hc; simpl; [reflexivity | exact Hc].
  - exact IH.
Qed.

(** [rstrip] removes the longest suffix made of whitespace, and nothing
    else. *)
Lemma rstrip_unique p ws :
  ends_in_space p = false -> all_space ws = true ->
  rstrip (p ++ ws)%string = p.
Proof.
  intros Hp Hws. rewrite rstrip_append by assumption. now apply rstrip_fixed.
Qed.

(** C9, as stated, fails: the command executed for a line that ends in a
    space, a tab and a newline has lost the space and the tab as well. *)
Lemma C9_trailing_blanks_are_removed :
  cmd_args
    (trace (snd (CLI_call padded_input_env 0 params_batch initial_world)))
  = ["ls /"] /\
  strip_line_terminators padded_line = ("ls /" ++ " " ++ TAB)%string /\
  rstrip padded_line <> strip_line_terminators padded_line.
Proof. split; [reflexivity | split; [reflexivity | discriminate]]. Qed.

(** C9, amended.  In batch mode the [i]-th command passed to [shell.onecmd]
    is the [i]-th line returned by [readlines] without its longest suffix of
    whitespace characters (space, tab, LF, VT, FF, CR): the line is the
    command followed by whitespace only, and the command does not end in
    whitespace.  The line terminators are among the characters removed, and
    so are trailing spaces and tabs. *)
Theorem C9_batch_command_is_rstripped_line :
  forall env fuel params,
    spec_mode params = Batch ->
    let tr := trace (snd (CLI_call env fuel params initial_world)) in
    (forall i cmd,
        nth_error (cmd_args tr) i = Some cmd ->
        exists lines line ws,
          stdin_readlines env [EvShell (shell_args params)] = Returns lines /\
          nth_error lines i = Some line /\
          cmd = rstrip line /\
          line = (cmd ++ ws)%string /\
          all_space ws = true /\
          ends_in_space cmd = false) /\
    all_space (" " ++ TAB ++ LF ++ String "013"%char EmptyString)%string = true.
Proof.
  intros env fuel params Hm tr. split; [|reflexivity].
  intros i cmd Hi.
  destruct (CLI_call_batch_shape env fuel params Hm)
    as [(H & _) | [(H & _) | (lines & k & Hr & H)]]; fold tr in H;
    rewrite H in Hi.
  - destruct i; discriminate Hi.
  - destruct i; discriminate Hi.
  - simpl in Hi. rewrite cmd_args_onecmds, nth_error_map in Hi.
    destruct (nth_error (firstn k lines) i) as [line|] eqn:Hl;
      [|discriminate Hi].
    injection Hi as <-.
    rewrite nth_error_firstn in Hl.
    destruct (Nat.ltb i k); [|discriminate Hl].
    destruct (rstrip_decompose line) as (ws & Hd & Hws).
    exists lines, line, ws.
    repeat split; try assumption.
    apply rstrip_no_trailing_space.
Qed.

Lemma C9_batch_command_is_rstripped_line_witness :
  spec_mode params_batch = Batch /\
  nth_error
    (cmd_args
       (trace (snd (CLI_call padded_input_env 0 params_batch initial_world))))
    0 = Some "ls /" /\
  exists lines line ws,
    stdin_readlines padded_input_env [EvShell (shell_args params_batch)]
    = Returns lines /\
    nth_error lines 0 = Some line /\
    "ls /" = rstrip line /\
    line = ("ls /" ++ ws)%string /\
    all_space ws = true /\
    ends_in_space "ls /" = false.
Proof.
  split; [reflexivity | split; [reflexivity|]].
  apply (proj1 (C9_batch_command_is_rstripped_line padded_input_env 0%nat
                  params_batch eq_refl) 0%nat "ls /").
  reflexivity.
Defined.

(** ** The output adapter *)

Lemma stream_flush_file (file : Type) (file_flush : file -> option exn * file)
  (s : stream) :
  stream_flush file file_flush s = file_flush.
Proof. induction s; simpl; congruence. Qed.

Lemma CLI_call_stdout env fuel params :
  let w := snd (CLI_call env fuel params initial_world) in
  sys_stdout w
  = (if interactive params then SysStdout else Unbuffered SysStdout) /\
  exists evs,
    trace w = EvShell (shell_args params) :: evs /\
    sh_output (shell_args params) = sys_stdout w.
Proof.
  destruct (CLI_call_world env fuel params) as ((evs & Ht) & H).
  cbv zeta.
  assert (Ho : sys_stdout (snd (CLI_call env fuel params initial_world))
               = if interactive params then SysStdout
                 else Unbuffered SysStdout).
  { destruct (spec_mode params) eqn:Hm.
    - assert (Hi : interactive params = false)
        by (apply interactive_false_spec_mode; congruence).
      rewrite Hi. apply H.
    - assert (Hi : interactive params = false)
        by (apply interactive_false_spec_mode; congruence).
      rewrite Hi. apply H.
    - apply interactive_spec_mode in Hm. rewrite Hm. apply H. }
  split; [exact Ho|].
  exists evs. split; [exact Ht|]. now rewrite Ho.
Qed.

(** C8.  Whatever the file object behind [sys.stdout] does: a write through
    the adapter is the write of the wrapped stream, with its effect and its
    exception if it raises one, followed, if that write returns, by a flush
    that reaches the file's own [flush] through any number of adapters (for
    the adapter that [set_unbuffered_mode] installs: the file's [write], then
    the file's [flush]); an attribute that ordinary lookup does not find on the adapter
    is the wrapped stream's attribute of the same name; and after a call of
    [CLI.__call__] the stream bound to [sys.stdout], which is also the one
    given to the [Shell], is the adapter around the original stream in
    one-shot and batch mode and the original stream itself in interactive
    mode. *)
Theorem C8_output_adapter :
  forall (file : Type) (file_write : string -> file -> option exn * file)
         (file_flush : file -> option exn * file)
         (object_has : string -> bool),
    (forall s data f,
        stream_write file file_write file_flush (Unbuffered s) data f
        = match stream_write file file_write file_flush s data f with
          | (None, f') => file_flush f'
          | (Some e, f') => (Some e, f')
          end) /\
    (forall data f,
        stream_write file file_write file_flush (Unbuffered SysStdout) data f
        = match file_write data f with
          | (None, f') => file_flush f'
          | (Some e, f') => (Some e, f')
          end) /\
    (forall s name,
        found_on_wrapper object_has name = false ->
        getattr object_has (Unbuffered s) name = getattr object_has s name) /\
    (forall env fuel params,
        let w := snd (CLI_call env fuel params initial_world) in
        (sys_stdout w = Unbuffered SysStdout <->
         spec_mode params = OneShot \/ spec_mode params = Batch) /\
        (sys_stdout w = SysStdout <-> spec_mode params = Interactive) /\
        exists evs,
          trace w = EvShell (shell_args params) :: evs /\
          sh_output (shell_args params) = sys_stdout w).
Proof.
  intros file file_write file_flush object_has.
  split; [|split; [reflexivity | split]].
  - intros s data f. simpl. unfold io_then.
    now rewrite stream_flush_file.
  - intros s name H. simpl. now rewrite H.
  - intros env fuel params w.
    destruct (CLI_call_stdout env fuel params) as (Ho & Hev).
    fold w in Ho, Hev.
    assert (Hi : interactive params
                 = match spec_mode params with
                   | Interactive => true
                   | _ => false
                   end).
    { destruct (spec_mode params) eqn:Hm.
      - apply interactive_false_spec_mode; congruence.
      - apply interactive_false_spec_mode; congruence.
      - now apply interactive_spec_mode. }
    split; [|split; [|exact Hev]]; rewrite Ho, Hi.
    + destruct (spec_mode params); split; intro H;
        try discriminate H; auto.
      destruct H; discriminate.
    + destruct (spec_mode params); split; intro H;
        try discriminate H; reflexivity.
Qed.

(** Through the adapter nothing stays pending. *)
Lemma unbuffered_write_delivers data f :
  stream_write buffered buffered_write buffered_flush (Unbuffered SysStdout)
    data f
  = (None,
     mkBuffered EmptyString (delivered f ++ (pending f ++ data))%string).
Proof. reflexivity. Qed.

Lemma C8_output_adapter_witness :
  found_on_wrapper (fun _ => false) "isatty" = false /\
  getattr (fun _ => false) (Unbuffered SysStdout) "isatty" = OnFile "isatty".
Proof.
  split; [reflexivity|].
  apply (proj1 (proj2 (proj2
           (C8_output_adapter buffered buffered_write buffered_flush
              (fun _ => false))))
           SysStdout "isatty").
  reflexivity.
Defined.

(** ** The calls of a run, mode by mode *)

Lemma CLI_call_not_constructed env fuel params :
  CLI_call env fuel params initial_world =
  match Shell_init env [] (shell_args params) with
  | Returns _ => CLI_call env fuel params initial_world
  | Raises e => (Raise e, unconstructed params)
  | Sigusr2 => (Killed, unconstructed params)
  end.
Proof.
  destruct (Shell_init env [] (shell_args params)) as [[]|e|] eqn:Hs;
    [reflexivity | |];
    rewrite CLI_call_mode_path; unfold unconstructed;
    destruct (spec_mode params) eqn:Hm.
  - rewrite shell_args_not_interactive in Hs by congruence.
    assert (Hi : interactive params = false)
      by (apply interactive_false_spec_mode; congruence).
    rewrite Hi, shell_args_not_interactive by congruence.
    simpl. unfold oneshot_path. rewrite scripted_path_eq.
    cbn [initial_world trace sys_stdout sigusr2]. now rewrite Hs.
  - rewrite shell_args_not_interactive in Hs by congruence.
    assert (Hi : interactive params = false)
      by (apply interactive_false_spec_mode; congruence).
    rewrite Hi, shell_args_not_interactive by congruence.
    simpl. unfold batch_path. rewrite scripted_path_eq.
    cbn [initial_world trace sys_stdout sigusr2]. now rewrite Hs.
  - rewrite shell_args_interactive in Hs by assumption.
    assert (Hi : interactive params = true)
      by (now apply interactive_spec_mode).
    rewrite Hi, shell_args_interactive by assumption.
    simpl. unfold interactive_path, bind, get_stdout, extcall.
    cbn [initial_world trace sys_stdout sigusr2]. now rewrite Hs.
  - rewrite shell_args_not_interactive in Hs by congruence.
    assert (Hi : interactive params = false)
      by (apply interactive_false_spec_mode; congruence).
    rewrite Hi, shell_args_not_interactive by congruence.
    simpl. unfold oneshot_path. rewrite scripted_path_eq.
    cbn [initial_world trace sys_stdout sigusr2]. now rewrite Hs.
  - rewrite shell_args_not_interactive in Hs by congruence.
    assert (Hi : interactive params = false)
      by (apply interactive_false_spec_mode; congruence).
    rewrite Hi, shell_args_not_interactive by congruence.
    simpl. unfold batch_path. rewrite scripted_path_eq.
    cbn [initial_world trace sys_stdout sigusr2]. now rewrite Hs.
  - rewrite shell_args_interactive in Hs by assumption.
    assert (Hi : interactive params = true)
      by (now apply interactive_spec_mode).
    rewrite Hi, shell_args_interactive by assumption.
    simpl. unfold interactive_path, bind, get_stdout, extcall.
    cbn [initial_world trace sys_stdout sigusr2]. now rewrite Hs.
Qed.

Lemma CLI_call_interactive env fuel params :
  spec_mode params = Interactive ->
  Shell_init env [] (shell_args params) = Returns tt ->
  CLI_call env fuel params initial_world
  = supervise env (welcome env) fuel true (interactive_start params).
Proof.
  intros Hm Hs. rewrite CLI_call_mode_path, Hm. simpl.
  unfold interactive_start. rewrite shell_args_interactive in * by assumption.
  unfold interactive_path, bind, get_stdout, extcall.
  cbn [initial_world trace sys_stdout sigusr2]. rewrite Hs.
  destruct (sync_connect params); reflexivity.
Qed.

Lemma loop_body_finishes env intro first w :
  fst (loop_body env intro first w) <> Unfinished.
Proof.
  rewrite loop_body_eq.
  destruct (Shell_run _ _ _) as [[]|e|]; simpl; try discriminate.
  - destruct e; simpl; try discriminate.
    destruct (raw_input _ _ _); simpl; try discriminate.
    destruct (sigusr2 w); discriminate.
  - destruct (sigusr2 w); discriminate.
Qed.

Lemma loop_body_iteration env (intro : string) (first : bool) w :
  exists b,
    trace (snd (loop_body env intro first w))
    = trace w ++ iteration_events (if first then Some intro else None, b).
Proof.
  rewrite loop_body_eq.
  set (arg := if first then Some intro else None).
  destruct (Shell_run env (trace w) arg) as [[]|e|].
  - now exists false.
  - destruct e; try (now exists false).
    exists true. unfold iteration_events.
    destruct (raw_input _ _ _); simpl; now rewrite <- app_assoc.
  - exists false. now destruct (sigusr2 w).
Qed.

(** The calls of the supervisor loop: one group per pass, at most as many
    passes as the bound, and exactly as many when the bound is reached. *)
Lemma supervise_iterations env intro fuel : forall first w,
  exists its,
    trace (snd (supervise env intro fuel first w))
    = trace w ++ flat_map iteration_events its /\
    (length its <= fuel)%nat /\
    (fst (supervise env intro fuel first w) = Unfinished ->
     length its = fuel).
Proof.
  induction fuel as [|fuel IH]; intros first w.
  - exists []. simpl. rewrite app_nil_r. repeat split; lia.
  - rewrite supervise_S.
    destruct (loop_body_iteration env intro first w) as (b & Hb).
    pose proof (loop_body_finishes env intro first w) as Hf.
    destruct (loop_body env intro first w) as [[[|]| | |] w1]; simpl in Hb, Hf;
      try (exists [(if first then Some intro else None, b)]; simpl;
           rewrite app_nil_r; repeat split;
           [exact Hb | lia | discriminate]).
    + destruct (IH false w1) as (its & Ht & Hl & Hu).
      exists ((if first then Some intro else None, b) :: its).
      split; [|split].
      * rewrite Ht, Hb. simpl. now rewrite <- app_assoc.
      * simpl; lia.
      * intro H. simpl. f_equal. now apply Hu.
    + now elim Hf.
Qed.

(** The calls of a run: the constructor first, then the calls of the one
    mode. *)
Lemma CLI_call_trace_shape env fuel params :
  exists tail,
    trace (snd (CLI_call env fuel params initial_world))
    = EvShell (shell_args params) :: tail /\
    match spec_mode params with
    | OneShot => tail = [] \/ tail = [EvOnecmd (run_once params)]
    | Batch => tail = [] \/ exists cmds, tail = EvReadlines :: map EvOnecmd cmds
    | Interactive =>
        exists its,
          tail = flat_map iteration_events its /\ (length its <= fuel)%nat
    end.
Proof.
  rewrite CLI_call_not_constructed.
  destruct (Shell_init env [] (shell_args params)) as [[]|e|] eqn:Hs.
  2,3: exists []; split; [reflexivity|];
       destruct (spec_mode params); [now left | now left | exists []; split;
                                                            [reflexivity | simpl; lia]].
  destruct (spec_mode params) eqn:Hm.
  - rewrite CLI_call_scripted by (congruence || assumption).
    rewrite Hm, oneshot_block_eq.
    exists [EvOnecmd (run_once params)]. split; [|now right].
    destruct (Shell_onecmd _ _ _) as [r|e|]; simpl; try reflexivity.
    destruct e; reflexivity.
  - destruct (CLI_call_batch_shape env fuel params Hm)
      as [(H & Hn) | [(H & _) | (lines & k & _ & H)]].
    + now elim Hn.
    + exists [EvReadlines]. split; [exact H | right; now exists []].
    + exists (EvReadlines :: map EvOnecmd (map rstrip (firstn k lines))).
      split; [exact H | right; now eexists].
  - rewrite CLI_call_interactive by assumption.
    destruct (supervise_iterations env (welcome env) fuel true
                (interactive_start params)) as (its & Ht & Hl & _).
    exists (flat_map iteration_events its). split; [exact Ht|].
    now exists its.
Qed.

Lemma seen_none (f : event -> bool) tr :
  (forall e, In e tr -> f e = false) -> seen f tr = 0%nat.
Proof.
  unfold seen. induction tr as [|e tr IH]; intro H; [reflexivity|].
  simpl. rewrite (H e) by now left.
  apply IH. intros e' He'. apply H. now right.
Qed.

Lemma seen_app (f : event -> bool) tr1 tr2 :
  seen f (tr1 ++ tr2) = (seen f tr1 + seen f tr2)%nat.
Proof. unfold seen. now rewrite filter_app, length_app. Qed.

Lemma In_iterations e its :
  In e (flat_map iteration_events its) ->
  (exists a, e = EvRun a) \/ e = EvRawInput exit_prompt.
Proof.
  intro H. apply in_flat_map in H as ((a & b) & _ & H).
  unfold iteration_events in H. simpl in H.
  destruct H as [<- | H]; [left; now exists a|].
  destruct b; [|contradiction].
  destruct H as [<- | []]. now right.
Qed.

Lemma In_onecmds e cmds : In e (map EvOnecmd cmds) -> exists c, e = EvOnecmd c.
Proof. intro H. apply in_map_iff in H as (c & <- & _). now exists c. Qed.

(** X1.  Whatever the mode, the bound and the collaborators, the first call
    of a run is the [Shell] constructor and there is no second one; it gets
    the hosts, the timeout and the read-only flag of the parameters
    unchanged, [setup_readline] exactly in interactive mode, and [async]
    exactly in interactive mode without [sync_connect]. *)
Theorem X1_shell_constructed_once_first :
  forall env fuel params,
    (exists tail,
        trace (snd (CLI_call env fuel params initial_world))
        = EvShell (shell_args params) :: tail /\
        seen is_shell tail = 0%nat) /\
    sh_hosts (shell_args params) = hosts params /\
    sh_connect_timeout (shell_args params) = connect_timeout params /\
    sh_read_only (shell_args params) = readonly params /\
    (sh_setup_readline (shell_args params) = true <->
     spec_mode params = Interactive) /\
    (sh_async (shell_args params) = true <->
     spec_mode params = Interactive /\ sync_connect params = false).
Proof.
  intros env fuel params.
  split; [|split; [reflexivity | split; [reflexivity | split;
                                          [reflexivity | split]]]].
  - destruct (CLI_call_trace_shape env fuel params) as (tail & Ht & Hshape).
    exists tail. split; [exact Ht|].
    apply seen_none. intros e He.
    destruct (spec_mode params).
    + destruct Hshape as [-> | ->]; [contradiction|].
      destruct He as [<- | []]. reflexivity.
    + destruct Hshape as [-> | (cmds & ->)]; [contradiction|].
      destruct He as [<- | He]; [reflexivity|].
      apply In_onecmds in He as (c & ->). reflexivity.
    + destruct Hshape as (its & -> & _).
      apply In_iterations in He as [(a & ->) | ->]; reflexivity.
  - simpl. apply interactive_spec_mode.
  - simpl. unfold async. rewrite <- interactive_spec_mode.
    destruct (sync_connect params), (interactive params); simpl;
      split; try discriminate; try (intros (H1 & H2); discriminate);
      intros _; split; reflexivity.
Qed.

(** X2.  Once the [Shell] is constructed, the SIGUSR2 handler is installed
    exactly when the [Shell] was asked to connect asynchronously: the flag
    [async] given to the constructor and the registration of
    [sigusr_handler] always agree. *)
Theorem X2_async_iff_handler :
  forall env fuel params,
    Shell_init env [] (shell_args params) = Returns tt ->
    (sh_async (shell_args params) = true <->
     sigusr2 (snd (CLI_call env fuel params initial_world)) = SigusrHandler).
Proof.
  intros env fuel params Hs.
  destruct (CLI_call_world env fuel params) as (_ & H).
  assert (Ha : sh_async (shell_args params)
               = match spec_mode params with
                 | Interactive => negb (sync_connect params)
                 | _ => false
                 end).
  { simpl. unfold async.
    destruct (spec_mode params) eqn:Hm.
    - assert (Hi : interactive params = false)
        by (apply interactive_false_spec_mode; congruence).
      now rewrite Hi, orb_true_r.
    - assert (Hi : interactive params = false)
        by (apply interactive_false_spec_mode; congruence).
      now rewrite Hi, orb_true_r.
    - apply interactive_spec_mode in Hm. rewrite Hm.
      now destruct (sync_connect params). }
  rewrite Ha. rewrite Hs in H.
  destruct (spec_mode params).
  - destruct H as (_ & ->). split; discriminate.
  - destruct H as (_ & ->). split; discriminate.
  - destruct H as (_ & ->).
    destruct (sync_connect params); split; (reflexivity || discriminate).
Qed.

Lemma X2_async_iff_handler_witness :
  Shell_init prompt_env [] (shell_args params_interactive) = Returns tt /\
  (sh_async (shell_args params_interactive) = true <->
   sigusr2 (snd (CLI_call prompt_env 3 params_interactive initial_world))
   = SigusrHandler).
Proof.
  split; [reflexivity|].
  exact (X2_async_iff_handler prompt_env 3%nat params_interactive eq_refl).
Defined.

(** X3.  The [Shell] constructor is called outside the [try] statement: an
    exception it raises, [IOError] included, leaves [CLI.__call__] as it is
    (no exit code is computed); no other collaborator is called and the
    handler is not installed, but in one-shot and batch mode [sys.stdout] has
    already been replaced by the adapter. *)
Theorem X3_constructor_failure_propagates :
  forall env fuel params e,
    Shell_init env [] (shell_args params) = Raises e ->
    let out := CLI_call env fuel params initial_world in
    fst out = Raise e /\
    trace (snd out) = [EvShell (shell_args params)] /\
    sigusr2 (snd out) = SIG_DFL /\
    sys_stdout (snd out)
    = match spec_mode params with
      | Interactive => SysStdout
      | _ => Unbuffered SysStdout
      end.
Proof.
  intros env fuel params e Hs out. subst out.
  rewrite CLI_call_not_constructed, Hs. simpl.
  repeat split.
  destruct (spec_mode params) eqn:Hm.
  - assert (Hi : interactive params = false)
      by (apply interactive_false_spec_mode; congruence).
    now rewrite Hi.
  - assert (Hi : interactive params = false)
      by (apply interactive_false_spec_mode; congruence).
    now rewrite Hi.
  - apply interactive_spec_mode in Hm. now rewrite Hm.
Qed.

Lemma X3_constructor_failure_propagates_witness :
  Shell_init unreachable_env [] (shell_args params_oneshot) = Raises IOError /\
  fst (CLI_call unreachable_env 0 params_oneshot initial_world) = Raise IOError.
Proof.
  split; [reflexivity|].
  exact (proj1 (X3_constructor_failure_propagates unreachable_env 0%nat
                  params_oneshot IOError eq_refl)).
Defined.

(** X5.  The modes do not mix: a one-shot run never reads the standard
    input, even with [run_from_stdin] set, and executes at most one command;
    a batch run reads the input at most once; neither ever calls the prompt
    loop or asks for confirmation; an interactive run never calls
    [shell.onecmd] and never reads the standard input, and asks for
    confirmation at most once per call of the prompt loop. *)
Theorem X5_modes_do_not_mix :
  forall env fuel params,
    let tr := trace (snd (CLI_call env fuel params initial_world)) in
    match spec_mode params with
    | OneShot =>
        seen is_readlines tr = 0%nat /\ (seen is_cmd tr <= 1)%nat /\
        seen is_run tr = 0%nat /\ seen is_prompt tr = 0%nat
    | Batch =>
        (seen is_readlines tr <= 1)%nat /\
        seen is_run tr = 0%nat /\ seen is_prompt tr = 0%nat
    | Interactive =>
        seen is_cmd tr = 0%nat /\ seen is_readlines tr = 0%nat /\
        (seen is_prompt tr <= seen is_run tr)%nat /\
        (seen is_run tr <= fuel)%nat
    end.
Proof.
  intros env fuel params tr.
  destruct (CLI_call_trace_shape env fuel params) as (tail & Ht & Hshape).
  fold tr in Ht. rewrite Ht.
  destruct (spec_mode params).
  - destruct Hshape as [-> | ->]; cbv; repeat split; lia.
  - destruct Hshape as [-> | (cmds & ->)];
      [cbv; repeat split; lia|].
    change (EvShell (shell_args params) :: EvReadlines :: map EvOnecmd cmds)
      with ([EvShell (shell_args params); EvReadlines] ++ map EvOnecmd cmds).
    rewrite !seen_app.
    assert (H : forall f, (forall c, f (EvOnecmd c) = false) ->
                          seen f (map EvOnecmd cmds) = 0%nat).
    { intros f Hf. apply seen_none. intros e He.
      apply In_onecmds in He as (c & ->). apply Hf. }
    rewrite !H by reflexivity. cbv. repeat split; lia.
  - destruct Hshape as (its & -> & Hl).
    change (EvShell (shell_args params) :: flat_map iteration_events its)
      with ([EvShell (shell_args params)] ++ flat_map iteration_events its).
    rewrite !seen_app.
    assert (Hc : forall f, (forall a, f (EvRun a) = false) ->
                           f (EvRawInput exit_prompt) = false ->
                           seen f (flat_map iteration_events its) = 0%nat).
    { intros f Hf1 Hf2. apply seen_none. intros e He.
      apply In_iterations in He as [(a & ->) | ->]; auto. }
    rewrite !Hc by reflexivity.
    assert (Hr : seen is_run (flat_map iteration_events its) = length its /\
                 (seen is_prompt (flat_map iteration_events its)
                  <= length its)%nat).
    { clear Hl Ht Hc. induction its as [|(a & b) its (IH1 & IH2)];
        [split; reflexivity|].
      change (flat_map iteration_events ((a, b) :: its))
        with (iteration_events (a, b) ++ flat_map iteration_events its).
      rewrite !seen_app, IH1.
      destruct b; cbn; split; lia. }
    destruct Hr as (Hr1 & Hr2). rewrite Hr1.
    cbn. repeat split; lia.
Qed.

(** ** Further behaviour of the non-interactive modes *)

(** X4.  Only [IOError] is turned into an exit code.  Any other exception
    raised by the command of a one-shot run, by reading the input of a batch
    run or by one of its commands leaves [CLI.__call__] as it is, without
    [sys.exit]; in a batch run the lines after the failing command are not
    executed. *)
Theorem X4_other_exceptions_propagate :
  forall env fuel params e,
    e <> IOError ->
    Shell_init env [] (shell_args params) = Returns tt ->
    let out := CLI_call env fuel params initial_world in
    let tr0 := [EvShell (shell_args params)] in
    (spec_mode params = OneShot ->
     Shell_onecmd env tr0 (run_once params) = Raises e ->
     fst out = Raise e /\
     trace (snd out) = tr0 ++ [EvOnecmd (run_once params)]) /\
    (spec_mode params = Batch ->
     (stdin_readlines env tr0 = Raises e ->
      fst out = Raise e /\ cmd_args (trace (snd out)) = []) /\
     (forall lines pre line post,
         stdin_readlines env tr0 = Returns lines ->
         lines = pre ++ line :: post ->
         all_return env (tr0 ++ [EvReadlines]) (map rstrip pre) ->
         Shell_onecmd env
           (tr0 ++ EvReadlines :: map EvOnecmd (map rstrip pre))
           (rstrip line) = Raises e ->
         fst out = Raise e /\
         cmd_args (trace (snd out)) = map rstrip (pre ++ [line]))).
Proof.
  intros env fuel params e He Hs out tr0. split.
  - intros Hm Hc. subst out.
    rewrite CLI_call_scripted by (congruence || assumption).
    rewrite Hm, oneshot_block_eq.
    change (trace (scripted_start params)) with tr0. rewrite Hc.
    destruct e; try (now elim He); split; reflexivity.
  - intro Hm.
    assert (Hout : out =
              match batch_block env (scripted_start params) with
              | (Normal rc, w) => (Raise (SystemExit rc), w)
              | (Raise e, w) => (Raise e, w)
              | (Killed, w) => (Killed, w)
              | (Unfinished, w) => (Unfinished, w)
              end) by (subst out; now apply CLI_call_batch).
    rewrite batch_block_eq in Hout.
    change (trace (scripted_start params)) with tr0 in Hout.
    split.
    + intro Hr. rewrite Hr in Hout. rewrite Hout.
      destruct e; try (now elim He); split; reflexivity.
    + intros lines pre line post Hr -> Hall Hc. rewrite Hr in Hout.
      rewrite (for_each_line_raises env pre line post e
                 (log EvReadlines (scripted_start params))) in Hout;
        [| exact Hall | exact Hc].
      rewrite Hout.
      destruct e; try (now elim He);
        (split; [reflexivity | cbn [snd]; apply cmd_args_scripted_start]).
Qed.

Lemma X4_other_exceptions_propagate_witness :
  KeyboardInterrupt <> IOError /\
  Shell_init interrupted_command_env [] (shell_args params_oneshot)
  = Returns tt /\
  spec_mode params_oneshot = OneShot /\
  Shell_onecmd interrupted_command_env [EvShell (shell_args params_oneshot)]
    (run_once params_oneshot) = Raises KeyboardInterrupt /\
  fst (CLI_call interrupted_command_env 0 params_oneshot initial_world)
  = Raise KeyboardInterrupt.
Proof.
  assert (Hne : KeyboardInterrupt <> IOError) by discriminate.
  split; [exact Hne | split; [reflexivity | split; [reflexivity | split;
                                                     [reflexivity|]]]].
  exact (proj1 (proj1 (X4_other_exceptions_propagate interrupted_command_env
                         0%nat params_oneshot KeyboardInterrupt Hne eq_refl)
                  eq_refl eq_refl)).
Defined.

(** X6.  A batch run does not skip blank lines: when the input is read and
    every command returns, there is one call of [shell.onecmd] per line, and
    the call for a line made of whitespace only (the empty line included) has
    the empty string as its command. *)
Theorem X6_blank_lines_are_executed :
  forall env fuel params lines,
    spec_mode params = Batch ->
    Shell_init env [] (shell_args params) = Returns tt ->
    stdin_readlines env [EvShell (shell_args params)] = Returns lines ->
    all_return env [EvShell (shell_args params); EvReadlines]
      (map rstrip lines) ->
    let cmds :=
      cmd_args (trace (snd (CLI_call env fuel params initial_world))) in
    length cmds = length lines /\
    forall i line,
      nth_error lines i = Some line ->
      all_space line = true ->
      nth_error cmds i = Some EmptyString.
Proof.
  intros env fuel params lines Hm Hs Hr Hall cmds.
  assert (Hc : cmds = map rstrip lines).
  { subst cmds. rewrite CLI_call_batch by assumption.
    rewrite batch_block_eq.
    change (trace (scripted_start params))
      with [EvShell (shell_args params)].
    rewrite Hr.
    rewrite (for_each_line_all_return env lines
               (log EvReadlines (scripted_start params)) Hall).
    cbn [snd]. apply cmd_args_scripted_start. }
  rewrite Hc. split; [apply length_map|].
  intros i line Hi Hsp.
  rewrite nth_error_map, Hi. simpl.
  now rewrite rstrip_all_space.
Qed.

Lemma X6_blank_lines_are_executed_witness :
  length
    (cmd_args
       (trace (snd (CLI_call blank_lines_env 0 params_batch initial_world))))
  = 3%nat /\
  nth_error
    (cmd_args
       (trace (snd (CLI_call blank_lines_env 0 params_batch initial_world))))
    1 = Some EmptyString.
Proof.
  assert (Hall : all_return blank_lines_env
                   [EvShell (shell_args params_batch); EvReadlines]
                   (map rstrip [("a" ++ LF)%string; LF; ("  " ++ LF)%string])).
  { simpl. repeat split; now exists PyNone. }
  pose proof (X6_blank_lines_are_executed blank_lines_env 0%nat params_batch
                [("a" ++ LF)%string; LF; ("  " ++ LF)%string]
                eq_refl eq_refl eq_refl Hall) as (Hlen & Hblank).
  split; [exact Hlen|].
  exact (Hblank 1%nat LF eq_refl eq_refl).
Defined.

(** ** Dependence on the environment *)

Lemma loop_body_ext env1 env2 intro first w :
  (forall tr arg, Shell_run env1 tr arg = Shell_run env2 tr arg) ->
  (forall tr p, raw_input env1 tr p = raw_input env2 tr p) ->
  loop_body env1 intro first w = loop_body env2 intro first w.
Proof.
  intros Hrun Hin. rewrite !loop_body_eq. rewrite Hrun.
  destruct (Shell_run env2 _ _) as [[]|e|]; try reflexivity.
  destruct e; try reflexivity. now rewrite Hin.
Qed.

Lemma supervise_ext env1 env2 intro fuel :
  (forall tr arg, Shell_run env1 tr arg = Shell_run env2 tr arg) ->
  (forall tr p, raw_input env1 tr p = raw_input env2 tr p) ->
  forall first w,
    supervise env1 intro fuel first w = supervise env2 intro fuel first w.
Proof.
  intros Hrun Hin. induction fuel as [|fuel IH]; intros first w;
    [reflexivity|].
  rewrite !supervise_S, (loop_body_ext env1 env2) by assumption.
  destruct (loop_body env2 intro first w) as [[[|]| | |] w1];
    try reflexivity.
  apply IH.
Qed.

Lemma for_each_line_ext env1 env2 lines :
  (forall tr c, Shell_onecmd env1 tr c = Shell_onecmd env2 tr c) ->
  forall w, for_each_line env1 lines w = for_each_line env2 lines w.
Proof.
  intro Hc. induction lines as [|cmd rest IH]; intro w; [reflexivity|].
  simpl. unfold bind, extcall. rewrite Hc.
  destruct (Shell_onecmd env2 _ _) as [v|e|]; simpl.
  - apply IH.
  - reflexivity.
  - destruct (sigusr2 w); reflexivity.
Qed.

(** The loop over the lines sees the lines through [rstrip] only. *)
Lemma for_each_line_stripped env l1 : forall l2 w,
  map rstrip l1 = map rstrip l2 ->
  for_each_line env l1 w = for_each_line env l2 w.
Proof.
  induction l1 as [|a l1 IH]; intros [|b l2] w H; try discriminate H;
    [reflexivity|].
  simpl in H. injection H as Hab Hrest.
  simpl. rewrite Hab. unfold bind.
  destruct (extcall _ _ w) as [[v|e| |] w1]; try reflexivity.
  now apply IH.
Qed.

Lemma scripted_path_ext block1 block2 env1 env2 params w :
  (forall tr a, Shell_init env1 tr a = Shell_init env2 tr a) ->
  (forall w0, block1 w0 = block2 w0) ->
  scripted_path block1 env1 params w = scripted_path block2 env2 params w.
Proof.
  intros Hi Hb. rewrite !scripted_path_eq, Hi, Hb. reflexivity.
Qed.

Lemma oneshot_block_ext env1 env2 params w :
  (forall tr c, Shell_onecmd env1 tr c = Shell_onecmd env2 tr c) ->
  oneshot_block env1 params w = oneshot_block env2 params w.
Proof. intro Hc. now rewrite !oneshot_block_eq, Hc. Qed.

Lemma interactive_path_ext env1 env2 fuel params w :
  version env1 = version env2 ->
  (forall tr a, Shell_init env1 tr a = Shell_init env2 tr a) ->
  (forall first w0,
      supervise env1 (welcome env2) fuel first w0
      = supervise env2 (welcome env2) fuel first w0) ->
  interactive_path env1 fuel params w = interactive_path env2 fuel params w.
Proof.
  intros Hv Hi Hsup.
  assert (Hw : welcome env1 = welcome env2) by (unfold welcome; now rewrite Hv).
  unfold interactive_path, bind, get_stdout, extcall. rewrite Hi, Hw.
  destruct (Shell_init env2 _ _) as [[]|e|]; simpl.
  - destruct (when _ _ _) as [[[]|e| |] w1]; try reflexivity.
    apply Hsup.
  - reflexivity.
  - destruct (sigusr2 w); reflexivity.
Qed.

Lemma rstrip_idempotent s : rstrip (rstrip s) = rstrip s.
Proof. apply rstrip_fixed, rstrip_no_trailing_space. Qed.

Lemma rstrip_keeps_front a s :
  rstrip s <> EmptyString -> rstrip (a ++ s)%string = (a ++ rstrip s)%string.
Proof.
  intro Hs. induction a as [|c a IH]; simpl; [reflexivity|].
  rewrite IH. destruct (a ++ rstrip s)%string eqn:Ha; [|reflexivity].
  destruct a; simpl in Ha; [now elim Hs | discriminate Ha].
Qed.

(** X7.  Whitespace at the end of input lines is invisible to a run, and only
    there: two inputs whose lines agree after [rstrip] give the same result
    and the same calls, in every mode and from every starting world; in
    particular an input and the same input with every line already stripped.
    Whitespace in front of a command is kept. *)
Theorem X7_trailing_whitespace_is_irrelevant :
  (forall env fuel params l1 l2 w,
      map rstrip l1 = map rstrip l2 ->
      CLI_call (with_stdin env (Returns l1)) fuel params w
      = CLI_call (with_stdin env (Returns l2)) fuel params w) /\
  (forall env fuel params lines w,
      CLI_call (with_stdin env (Returns (map rstrip lines))) fuel params w
      = CLI_call (with_stdin env (Returns lines)) fuel params w) /\
  (forall front s,
      rstrip s <> EmptyString ->
      rstrip (front ++ s)%string = (front ++ rstrip s)%string).
Proof.
  assert (H : forall env fuel params l1 l2 w,
             map rstrip l1 = map rstrip l2 ->
             CLI_call (with_stdin env (Returns l1)) fuel params w
             = CLI_call (with_stdin env (Returns l2)) fuel params w).
  { intros env fuel params l1 l2 w Hl.
    rewrite !CLI_call_mode_path.
    destruct (spec_mode params); simpl.
    - apply scripted_path_ext; [reflexivity|].
      intro w0. now apply oneshot_block_ext.
    - apply scripted_path_ext; [reflexivity|].
      intro w0. rewrite !batch_block_eq. simpl.
      rewrite (for_each_line_ext (with_stdin env (Returns l1))
                 (with_stdin env (Returns l2))) by reflexivity.
      now rewrite (for_each_line_stripped _ l1 l2).
    - apply interactive_path_ext; try reflexivity.
      intros first w0. now apply supervise_ext. }
  split; [exact H | split].
  - intros env fuel params lines w. apply H.
    rewrite map_map. apply map_ext. apply rstrip_idempotent.
  - apply rstrip_keeps_front.
Qed.

Lemma X7_trailing_whitespace_is_irrelevant_witness :
  map rstrip [("ls /" ++ LF)%string] = map rstrip [padded_line] /\
  CLI_call (with_stdin quit_env (Returns [("ls /" ++ LF)%string])) 0
    params_batch initial_world
  = CLI_call (with_stdin quit_env (Returns [padded_line])) 0
      params_batch initial_world.
Proof.
  split; [reflexivity|].
  exact (proj1 X7_trailing_whitespace_is_irrelevant quit_env 0%nat params_batch
           [("ls /" ++ LF)%string] [padded_line] initial_world eq_refl).
Defined.

Lemma loop_body_forgiving env intro first w :
  loop_body (without_reconnections env) intro first w
  = loop_body env intro first w.
Proof.
  rewrite !loop_body_eq. simpl.
  destruct (Shell_run env _ _) as [[]|e|]; try reflexivity.
  destruct e; reflexivity.
Qed.

Lemma supervise_forgiving env intro fuel : forall first w,
  supervise (without_reconnections env) intro fuel first w
  = supervise env intro fuel first w.
Proof.
  induction fuel as [|fuel IH]; intros first w; [reflexivity|].
  rewrite !supervise_S, loop_body_forgiving.
  destruct (loop_body env intro first w) as [[[|]| | |] w1];
    try reflexivity.
  apply IH.
Qed.

(** X10.  The supervisor cannot tell a reconnection from a prompt loop that
    returns: replacing every [StateTransition] raised by [shell.run] by a
    normal return changes neither the result nor the calls of a run, in any
    mode and from any starting world.  A prompt loop that returns is
    therefore restarted, without banner and without confirmation. *)
Theorem X10_reconnection_is_a_return :
  forall env fuel params w,
    CLI_call (without_reconnections env) fuel params w
    = CLI_call env fuel params w.
Proof.
  intros env fuel params w. rewrite !CLI_call_mode_path.
  destruct (spec_mode params); simpl.
  - apply scripted_path_ext; [reflexivity|].
    intro w0. now apply oneshot_block_ext.
  - apply scripted_path_ext; [reflexivity|].
    intro w0. rewrite !batch_block_eq. simpl.
    destruct (stdin_readlines env (trace w0)) as [lines|e|]; try reflexivity.
    now rewrite (for_each_line_ext (without_reconnections env) env).
  - apply interactive_path_ext; try reflexivity.
    intros first w0. apply supervise_forgiving.
Qed.

(** ** Further behaviour of the supervisor loop *)

Lemma interrupted_true (r : response unit) :
  interrupted r = true <-> r = Raises KeyboardInterrupt.
Proof.
  destruct r as [[]|e|]; simpl; try (split; discriminate).
  destruct e; split; (reflexivity || discriminate).
Qed.

(** A pass through the loop calls [raw_input] exactly when its call of
    [shell.run] was ended by [KeyboardInterrupt]. *)
Lemma loop_body_iteration_tied env (intro : string) (first : bool) w :
  let arg := if first then Some intro else None in
  trace (snd (loop_body env intro first w))
  = trace w ++ iteration_events (arg, interrupted (Shell_run env (trace w) arg)).
Proof.
  intro arg. rewrite loop_body_eq. fold arg.
  destruct (Shell_run env (trace w) arg) as [[]|e|]; simpl.
  - reflexivity.
  - destruct e; simpl; try reflexivity.
    unfold iteration_events.
    destruct (raw_input _ _ _); simpl; now rewrite <- app_assoc.
  - now destruct (sigusr2 w).
Qed.

(** The calls of the supervisor loop, pass by pass: the argument of
    [shell.run] and whether the confirmation was asked for are those the code
    determines from [first] and from the way [shell.run] ended. *)
Lemma supervise_iterations_tied env intro fuel : forall first w,
  exists its,
    trace (snd (supervise env intro fuel first w))
    = trace w ++ flat_map iteration_events its /\
    (length its <= fuel)%nat /\
    (fst (supervise env intro fuel first w) = Unfinished ->
     length its = fuel) /\
    forall i a b,
      nth_error its i = Some (a, b) ->
      a = (if Nat.eqb i 0 && first then Some intro else None) /\
      b = interrupted
            (Shell_run env
               (trace w ++ flat_map iteration_events (firstn i its)) a).
Proof.
  induction fuel as [|fuel IH]; intros first w.
  - exists []. simpl. rewrite app_nil_r.
    repeat split; try lia; destruct i; discriminate.
  - rewrite supervise_S.
    pose proof (loop_body_iteration_tied env intro first w) as Hb.
    cbv zeta in Hb.
    pose proof (loop_body_finishes env intro first w) as Hf.
    set (arg := if first then Some intro else None) in *.
    set (b0 := interrupted (Shell_run env (trace w) arg)) in *.
    assert (Hone : forall i a b,
               nth_error [(arg, b0)] i = Some (a, b) ->
               a = (if Nat.eqb i 0 && first then Some intro else None) /\
               b = interrupted
                     (Shell_run env
                        (trace w
                         ++ flat_map iteration_events (firstn i [(arg, b0)]))
                        a)).
    { intros [|i] a b Hi; [|destruct i; discriminate Hi].
      injection Hi as <- <-. simpl. now rewrite app_nil_r. }
    destruct (loop_body env intro first w) as [[[|]| | |] w1];
      simpl in Hb, Hf;
      try (exists [(arg, b0)]; simpl; rewrite app_nil_r;
           split; [exact Hb | split; [lia | split;
                                             [discriminate | exact Hone]]]).
    + destruct (IH false w1) as (its & Ht & Hl & Hu & Hits).
      exists ((arg, b0) :: its).
      split; [|split; [|split]].
      * rewrite Ht, Hb. simpl. now rewrite <- app_assoc.
      * simpl; lia.
      * intro H. simpl. f_equal. now apply Hu.
      * intros [|i] a b Hi.
        -- injection Hi as <- <-. simpl. now rewrite app_nil_r.
        -- simpl in Hi. destruct (Hits i a b Hi) as (Ha & Hbb).
           rewrite andb_false_r in Ha. split; [exact Ha|].
           rewrite Hbb, Hb. simpl. now rewrite <- app_assoc.
    + now elim Hf.
Qed.

(** X8.  The calls of an interactive run are the constructor followed by one
    group per pass through the loop: a call of [shell.run], with the banner
    in the first pass and [None] afterwards, directly followed by one call of
    [raw_input] with the exit prompt exactly when that call of [shell.run]
    was ended by [KeyboardInterrupt], and nothing else.  There are at most as
    many passes as the bound, and exactly as many when the [Shell] is
    constructed and the run is still in the loop at the bound: every pass
    calls [shell.run] exactly once. *)
Theorem X8_interactive_session_shape :
  forall env fuel params,
    spec_mode params = Interactive ->
    let out := CLI_call env fuel params initial_world in
    exists its,
      trace (snd out)
      = EvShell (shell_args params) :: flat_map iteration_events its /\
      (length its <= fuel)%nat /\
      length (run_args (trace (snd out))) = length its /\
      (Shell_init env [] (shell_args params) = Returns tt ->
       fst out = Unfinished -> length its = fuel) /\
      (forall i a b,
          nth_error its i = Some (a, b) ->
          a = (if Nat.eqb i 0 then Some (welcome env) else None) /\
          (b = true <->
           Shell_run env
             (EvShell (shell_args params)
                :: flat_map iteration_events (firstn i its)) a
           = Raises KeyboardInterrupt)).
Proof.
  intros env fuel params Hm out.
  assert (Hruns : forall its,
             length (run_args (EvShell (shell_args params)
                                 :: flat_map iteration_events its))
             = length its).
  { intro its. simpl. induction its as [|(a & b) its IH]; [reflexivity|].
    simpl. destruct b; simpl; now rewrite IH. }
  destruct (Shell_init env [] (shell_args params)) as [[]|e|] eqn:Hs.
  - subst out. rewrite CLI_call_interactive by assumption.
    destruct (supervise_iterations_tied env (welcome env) fuel true
                (interactive_start params)) as (its & Ht & Hl & Hu & Hits).
    exists its. change (trace (interactive_start params))
      with [EvShell (shell_args params)] in Ht, Hits.
    split; [exact Ht | split; [exact Hl | split; [|split]]].
    + rewrite Ht. apply Hruns.
    + intros _. exact Hu.
    + intros i a b Hi. destruct (Hits i a b Hi) as (Ha & Hb).
      rewrite andb_true_r in Ha. split; [exact Ha|].
      rewrite Hb. apply interrupted_true.
  - subst out. rewrite CLI_call_not_constructed, Hs.
    exists []. simpl.
    split; [reflexivity | split; [lia | split; [reflexivity | split]]].
    + discriminate.
    + intros [|i] a b Hi; discriminate Hi.
  - subst out. rewrite CLI_call_not_constructed, Hs.
    exists []. simpl.
    split; [reflexivity | split; [lia | split; [reflexivity | split]]].
    + discriminate.
    + intros [|i] a b Hi; discriminate Hi.
Qed.

Lemma X8_interactive_session_shape_witness :
  spec_mode params_interactive = Interactive /\
  seen is_prompt
    (trace (snd (CLI_call prompt_env 9 params_interactive initial_world)))
  = 2%nat /\
  exists its,
    trace (snd (CLI_call prompt_env 9 params_interactive initial_world))
    = EvShell (shell_args params_interactive)
        :: flat_map iteration_events its /\
    (length its <= 9)%nat /\
    length
      (run_args
         (trace (snd (CLI_call prompt_env 9 params_interactive initial_world))))
    = length its /\
    (Shell_init prompt_env [] (shell_args params_interactive) = Returns tt ->
     fst (CLI_call prompt_env 9 params_interactive initial_world) = Unfinished ->
     length its = 9%nat) /\
    (forall i a b,
        nth_error its i = Some (a, b) ->
        a = (if Nat.eqb i 0 then Some (welcome prompt_env) else None) /\
        (b = true <->
         Shell_run prompt_env
           (EvShell (shell_args params_interactive)
              :: flat_map iteration_events (firstn i its)) a
         = Raises KeyboardInterrupt)).
Proof.
  split; [reflexivity | split; [reflexivity|]].
  exact (X8_interactive_session_shape prompt_env 9%nat params_interactive
           eq_refl).
Defined.

Lemma supervise_more_fuel env intro fuel : forall first w,
  fst (supervise env intro fuel first w) <> Unfinished ->
  forall extra,
    supervise env intro (fuel + extra) first w
    = supervise env intro fuel first w.
Proof.
  induction fuel as [|fuel IH]; intros first w H extra.
  - now elim H.
  - change (S fuel + extra)%nat with (S (fuel + extra)).
    rewrite !supervise_S. rewrite supervise_S in H.
    destruct (loop_body env intro first w) as [[[|]| | |] w1];
      try reflexivity.
    now apply IH.
Qed.

Lemma supervise_prefix env intro fuel : forall first w extra,
  exists evs,
    trace (snd (supervise env intro (fuel + extra) first w))
    = trace (snd (supervise env intro fuel first w)) ++ evs.
Proof.
  induction fuel as [|fuel IH]; intros first w extra.
  - destruct (supervise_extends env intro extra first w) as (_ & _ & evs & H).
    exists evs. exact H.
  - change (S fuel + extra)%nat with (S (fuel + extra)).
    rewrite !supervise_S.
    destruct (loop_body env intro first w) as [[[|]| | |] w1];
      try (exists []; now rewrite app_nil_r).
    apply IH.
Qed.

(** The iteration bound only cuts a run short: a run that has ended within a
    bound ends the same way within every larger bound, and the calls made
    within a bound are the first calls made within any larger bound. *)
Lemma CLI_call_bound_only_cuts_short :
  forall env fuel extra params w,
    (fst (CLI_call env fuel params w) <> Unfinished ->
     CLI_call env (fuel + extra) params w = CLI_call env fuel params w) /\
    exists evs,
      trace (snd (CLI_call env (fuel + extra) params w))
      = trace (snd (CLI_call env fuel params w)) ++ evs.
Proof.
  intros env fuel extra params w. rewrite !CLI_call_mode_path.
  destruct (spec_mode params); simpl.
  - split; [reflexivity | exists []; now rewrite app_nil_r].
  - split; [reflexivity | exists []; now rewrite app_nil_r].
  - unfold interactive_path, bind, get_stdout, extcall.
    destruct (Shell_init env (trace w) _) as [[]|e|]; simpl.
    + destruct (when _ _ _) as [[[]|e| |] w1];
        try (split; [reflexivity | exists []; now rewrite app_nil_r]).
      split; [intro H; now apply supervise_more_fuel | apply supervise_prefix].
    + split; [reflexivity | exists []; now rewrite app_nil_r].
    + destruct (sigusr2 w); simpl;
        (split; [reflexivity | exists []; now rewrite app_nil_r]).
Qed.

(** The supervisor raises nothing of its own: what leaves the loop is what
    [shell.run] raised, if it is neither of the two guarded classes, or what
    ended the reading of the confirmation. *)
Lemma supervise_raises_inv env intro fuel : forall first w e w',
  supervise env intro fuel first w = (Raise e, w') ->
  (exists tr arg,
      trace w' = tr ++ [EvRun arg] /\
      Shell_run env tr arg = Raises e /\
      e <> StateTransition /\ e <> KeyboardInterrupt) \/
  (exists tr arg,
      trace w' = tr ++ [EvRun arg; EvRawInput exit_prompt] /\
      Shell_run env tr arg = Raises KeyboardInterrupt /\
      (raw_input env (tr ++ [EvRun arg]) exit_prompt = Raises e \/
       raw_input env (tr ++ [EvRun arg]) exit_prompt = Sigusr2 /\
       e = StateTransition /\ sigusr2 w' = SigusrHandler)).
Proof.
  induction fuel as [|fuel IH]; intros first w e w' H.
  - discriminate H.
  - rewrite supervise_S, loop_body_eq in H.
    set (arg := if first then Some intro else None) in *.
    destruct (Shell_run env (trace w) arg) as [[]|e0|] eqn:Hrun.
    + eapply IH; eassumption.
    + destruct e0;
        try (injection H as <- <-; left; exists (trace w), arg;
             repeat split; try assumption; discriminate).
      * eapply IH; eassumption.
      * cbn [log trace] in H.
        destruct (raw_input env (trace w ++ [EvRun arg]) exit_prompt)
          as [done|e1|] eqn:Hans.
        -- destruct (String.eqb done "y"); [discriminate H|].
           eapply IH; eassumption.
        -- injection H as <- <-. right. exists (trace w), arg.
           split; [simpl; now rewrite <- app_assoc|].
           split; [assumption | now left].
        -- destruct (sigusr2 w) eqn:Hh; [discriminate H|].
           injection H as <- <-. right. exists (trace w), arg.
           split; [simpl; now rewrite <- app_assoc|].
           split; [assumption | right]. repeat split; assumption.
    + destruct (sigusr2 w); [discriminate H | eapply IH; eassumption].
Qed.

(** X11.  In interactive mode the supervisor guards the prompt loop against
    [StateTransition] and [KeyboardInterrupt] only, and computes no exit code:
    an exception of any other class raised by [shell.run], [IOError]
    included, leaves [CLI.__call__] at once, and so does any exception raised
    while the confirmation is read (end of input, a second keyboard
    interrupt); and every exception that leaves
    an interactive call with a constructed [Shell] is either such an
    exception of [shell.run], or what ended the reading of the confirmation
    after a keyboard interrupt (an exception of [raw_input], or
    [StateTransition] from the handler). *)
Theorem X11_interactive_exceptions :
  (forall env (intro : string) fuel (first : bool) w e,
      let arg := if first then Some intro else None in
      Shell_run env (trace w) arg = Raises e ->
      e <> StateTransition -> e <> KeyboardInterrupt ->
      supervise env intro (S fuel) first w = (Raise e, log (EvRun arg) w)) /\
  (forall env (intro : string) fuel (first : bool) w e,
      let arg := if first then Some intro else None in
      Shell_run env (trace w) arg = Raises KeyboardInterrupt ->
      raw_input env (trace w ++ [EvRun arg]) exit_prompt = Raises e ->
      supervise env intro (S fuel) first w
      = (Raise e, log (EvRawInput exit_prompt) (log (EvRun arg) w))) /\
  (forall env fuel params e w',
      spec_mode params = Interactive ->
      Shell_init env [] (shell_args params) = Returns tt ->
      CLI_call env fuel params initial_world = (Raise e, w') ->
      (exists tr arg,
          trace w' = tr ++ [EvRun arg] /\
          Shell_run env tr arg = Raises e /\
          e <> StateTransition /\ e <> KeyboardInterrupt) \/
      (exists tr arg,
          trace w' = tr ++ [EvRun arg; EvRawInput exit_prompt] /\
          Shell_run env tr arg = Raises KeyboardInterrupt /\
          (raw_input env (tr ++ [EvRun arg]) exit_prompt = Raises e \/
           raw_input env (tr ++ [EvRun arg]) exit_prompt = Sigusr2 /\
           e = StateTransition /\ sigusr2 w' = SigusrHandler))).
Proof.
  split; [|split].
  - intros env intro fuel first w e arg Hrun H1 H2.
    rewrite supervise_S, loop_body_eq. fold arg. rewrite Hrun.
    destruct e; try reflexivity; [now elim H1 | now elim H2].
  - intros env intro fuel first w e arg Hrun Hans.
    rewrite supervise_S, loop_body_eq. fold arg. rewrite Hrun.
    cbn [log trace]. now rewrite Hans.
  - intros env fuel params e w' Hm Hs H.
    rewrite CLI_call_interactive in H by assumption.
    eapply supervise_raises_inv; eassumption.
Qed.

Lemma X11_interactive_exceptions_witness :
  spec_mode params_interactive = Interactive /\
  Shell_init prompt_io_error_env [] (shell_args params_interactive)
  = Returns tt /\
  fst (CLI_call prompt_io_error_env 9 params_interactive initial_world)
  = Raise IOError /\
  ((exists tr arg,
       trace (snd (CLI_call prompt_io_error_env 9 params_interactive
                     initial_world)) = tr ++ [EvRun arg] /\
       Shell_run prompt_io_error_env tr arg = Raises IOError /\
       IOError <> StateTransition /\ IOError <> KeyboardInterrupt) \/
   (exists tr arg,
       trace (snd (CLI_call prompt_io_error_env 9 params_interactive
                     initial_world))
       = tr ++ [EvRun arg; EvRawInput exit_prompt] /\
       Shell_run prompt_io_error_env tr arg = Raises KeyboardInterrupt /\
       (raw_input prompt_io_error_env (tr ++ [EvRun arg]) exit_prompt
        = Raises IOError \/
        raw_input prompt_io_error_env (tr ++ [EvRun arg]) exit_prompt
        = Sigusr2 /\
        IOError = StateTransition /\
        sigusr2 (snd (CLI_call prompt_io_error_env 9 params_interactive
                        initial_world)) = SigusrHandler))).
Proof.
  split; [reflexivity | split; [reflexivity | split; [reflexivity|]]].
  exact (proj2 (proj2 X11_interactive_exceptions) prompt_io_error_env 9%nat
           params_interactive IOError _ eq_refl eq_refl eq_refl).
Defined.

(** ** Further behaviour of the output adapter *)

(** X12.  Through any number of adapters a write reaches the file's [write]
    exactly once, with the data unchanged and before any flush; if that write
    raises, the exception comes back and nothing is flushed; if it returns,
    the file is flushed once per adapter. *)
Theorem X12_write_through_adapters :
  forall (file : Type) (file_write : string -> file -> option exn * file)
         (file_flush : file -> option exn * file) n data f,
    stream_write file file_write file_flush (wrap n SysStdout) data f
    = match file_write data f with
      | (None, f') => flush_times file file_flush n f'
      | (Some e, f') => (Some e, f')
      end.
Proof.
  intros file file_write file_flush n data f.
  induction n as [|n IH]; simpl.
  - now destruct (file_write data f) as [[e|] f'].
  - unfold io_then at 1. fold (wrap n SysStdout). rewrite IH.
    rewrite stream_flush_file.
    destruct (file_write data f) as [[e|] f']; [reflexivity|].
    unfold io_then. reflexivity.
Qed.

(** X13.  Attribute pass-through composes: through any number of adapters a
    name that ordinary lookup does not find on an adapter is the file's
    attribute of that name, while the names the adapter binds itself
    ([stream], [__init__], [write], [__getattr__]) always stay with the
    outermost adapter, whatever [object] defines. *)
Theorem X13_attribute_lookup_through_adapters :
  forall (object_has : string -> bool),
    (forall n name,
        found_on_wrapper object_has name = false ->
        getattr object_has (wrap n SysStdout) name = OnFile name) /\
    (forall s name,
        In name Unbuffered_names ->
        getattr object_has (Unbuffered s) name = OnWrapper (Unbuffered s) name).
Proof.
  intro object_has. split.
  - intros n name H. induction n as [|n IH]; [reflexivity|].
    simpl. now rewrite H.
  - intros s name H. simpl.
    assert (Hf : found_on_wrapper object_has name = true).
    { unfold found_on_wrapper. apply orb_true_iff. left.
      apply existsb_exists. exists name. split; [exact H|].
      apply String.eqb_refl. }
    now rewrite Hf.
Qed.

Lemma X13_attribute_lookup_through_adapters_witness :
  found_on_wrapper (fun _ => false) "fileno" = false /\
  getattr (fun _ => false) (wrap 3 SysStdout) "fileno" = OnFile "fileno".
Proof.
  split; [reflexivity|].
  exact (proj1 (X13_attribute_lookup_through_adapters (fun _ => false))
           3%nat "fileno" eq_refl).
Defined.

Lemma CLI_call_globals env fuel params w :
  let w' := snd (CLI_call env fuel params w) in
  sys_stdout w'
  = (if interactive params then sys_stdout w else Unbuffered (sys_stdout w)) /\
  (exists a evs,
      trace w' = trace w ++ EvShell a :: evs /\ sh_output a = sys_stdout w') /\
  (sigusr2 w = SigusrHandler -> sigusr2 w' = SigusrHandler) /\
  (interactive params = false -> sigusr2 w' = sigusr2 w).
Proof.
  rewrite CLI_call_mode_path.
  destruct (spec_mode params) eqn:Hm; simpl.
  - assert (Hi : interactive params = false)
      by (apply interactive_false_spec_mode; congruence).
    rewrite Hi.
    destruct (scripted_path_world (oneshot_block env params) env params w
                (oneshot_block_extends env params)) as (Ho & Hs & evs & Ht).
    unfold oneshot_path. rewrite Ho, Hs.
    split; [reflexivity | split; [|split; auto]].
    eexists; exists evs. split; [exact Ht | reflexivity].
  - assert (Hi : interactive params = false)
      by (apply interactive_false_spec_mode; congruence).
    rewrite Hi.
    destruct (scripted_path_world (batch_block env) env params w
                (batch_block_extends env)) as (Ho & Hs & evs & Ht).
    unfold batch_path. rewrite Ho, Hs.
    split; [reflexivity | split; [|split; auto]].
    eexists; exists evs. split; [exact Ht | reflexivity].
  - assert (Hi : interactive params = true)
      by (now apply interactive_spec_mode).
    rewrite Hi.
    destruct (interactive_path_world env fuel params w)
      as (Ho & (evs & Ht) & Hs).
    rewrite Ho, Hs.
    split; [reflexivity | split; [|split; [|discriminate]]].
    + eexists; exists evs. split; [exact Ht | reflexivity].
    + intro Hw. rewrite Hw.
      destruct (Shell_init env (trace w) _) as [[]|e|]; try reflexivity.
      now destruct (sync_connect params).
Qed.

(** X14.  The wrapping is not idempotent.  From any starting world a
    one-shot or batch call puts exactly one more adapter around whatever is
    bound to [sys.stdout] and an interactive call none, and the [Shell] is
    constructed on the resulting stream; after a second non-interactive call
    in the same process every write flushes the file twice. *)
Theorem X14_adapters_stack :
  (forall env fuel params w,
      let w' := snd (CLI_call env fuel params w) in
      sys_stdout w'
      = (if interactive params then sys_stdout w
         else Unbuffered (sys_stdout w)) /\
      exists a evs,
        trace w' = trace w ++ EvShell a :: evs /\
        sh_output a = sys_stdout w') /\
  (forall env1 env2 fuel1 fuel2 p1 p2,
      spec_mode p1 <> Interactive -> spec_mode p2 <> Interactive ->
      let w2 :=
        snd (CLI_call env2 fuel2 p2
               (snd (CLI_call env1 fuel1 p1 initial_world))) in
      sys_stdout w2 = wrap 2 SysStdout /\
      forall (file : Type) (file_write : string -> file -> option exn * file)
             (file_flush : file -> option exn * file) data f,
        stream_write file file_write file_flush (sys_stdout w2) data f
        = match file_write data f with
          | (None, f') =>
              io_then file file_flush file_flush f'
          | (Some e, f') => (Some e, f')
          end).
Proof.
  split.
  - intros env fuel params w w'.
    destruct (CLI_call_globals env fuel params w) as (Ho & Ha & _).
    split; assumption.
  - intros env1 env2 fuel1 fuel2 p1 p2 H1 H2 w2.
    apply interactive_false_spec_mode in H1, H2.
    assert (Hw : sys_stdout w2 = wrap 2 SysStdout).
    { subst w2.
      destruct (CLI_call_globals env2 fuel2 p2
                  (snd (CLI_call env1 fuel1 p1 initial_world)))
        as (Ho2 & _).
      destruct (CLI_call_globals env1 fuel1 p1 initial_world) as (Ho1 & _).
      rewrite Ho2, H2, Ho1, H1. reflexivity. }
    split; [exact Hw|].
    intros file file_write file_flush data f. rewrite Hw. simpl.
    unfold io_then.
    destruct (file_write data f) as [[e|] f']; reflexivity.
Qed.

Lemma X14_adapters_stack_witness :
  spec_mode params_oneshot <> Interactive /\
  spec_mode params_batch <> Interactive /\
  sys_stdout
    (snd (CLI_call quit_env 0 params_batch
            (snd (CLI_call quit_env 0 params_oneshot initial_world))))
  = wrap 2 SysStdout.
Proof.
  assert (H1 : spec_mode params_oneshot <> Interactive) by discriminate.
  assert (H2 : spec_mode params_batch <> Interactive) by discriminate.
  split; [exact H1 | split; [exact H2|]].
  exact (proj1 (proj2 X14_adapters_stack quit_env quit_env 0%nat 0%nat
                  params_oneshot params_batch H1 H2)).
Defined.

(** X15.  A call never restores the default disposition of SIGUSR2: a
    handler that is installed when the call starts is still installed when it
    ends, in every mode, with [sync_connect] as well; and a one-shot or batch
    call leaves the disposition exactly as it found it. *)
Theorem X15_handler_is_never_removed :
  forall env fuel params w,
    (sigusr2 w = SigusrHandler ->
     sigusr2 (snd (CLI_call env fuel params w)) = SigusrHandler) /\
    (spec_mode params <> Interactive ->
     sigusr2 (snd (CLI_call env fuel params w)) = sigusr2 w).
Proof.
  intros env fuel params w.
  destruct (CLI_call_globals env fuel params w) as (_ & _ & H1 & H2).
  split; [exact H1|].
  intro Hm. apply H2. now apply interactive_false_spec_mode.
Qed.

Lemma X15_handler_is_never_removed_witness :
  sigusr2 armed_world = SigusrHandler /\
  sigusr2
    (snd (CLI_call prompt_env 9
            (mkCLIParams 10 EmptyString false true [] false) armed_world))
  = SigusrHandler.
Proof.
  split; [reflexivity|].
  exact (proj1 (X15_handler_is_never_removed prompt_env 9%nat
                  (mkCLIParams 10 EmptyString false true [] false)
                  armed_world) eq_refl).
Defined.

(** ** Exit codes and early signals *)

Lemma for_each_line_benign env lines :
  (forall tr c,
      match Shell_onecmd env tr c with
      | Returns _ | Raises IOError => True
      | _ => False
      end) ->
  forall w,
    fst (for_each_line env lines w) = Normal tt \/
    fst (for_each_line env lines w) = Raise IOError.
Proof.
  intro Hb. induction lines as [|cmd rest IH]; intro w; [now left|].
  simpl. unfold bind, extcall.
  specialize (Hb (trace w) (rstrip cmd)).
  destruct (Shell_onecmd env (trace w) (rstrip cmd)) as [v|e|];
    [apply IH | | contradiction].
  destruct e; try contradiction. now right.
Qed.

(** X16.  In one-shot and batch mode, with the [Shell] constructed and
    collaborators that only ever return or fail with [IOError], the call
    always ends in [sys.exit], with 0 or with 1 and with no other code. *)
Theorem X16_exit_code_is_0_or_1 :
  forall env fuel params,
    spec_mode params <> Interactive ->
    Shell_init env [] (shell_args params) = Returns tt ->
    benign env ->
    fst (CLI_call env fuel params initial_world) = Raise (SystemExit 0) \/
    fst (CLI_call env fuel params initial_world) = Raise (SystemExit 1).
Proof.
  intros env fuel params Hm Hs (Hread & Hcmd).
  rewrite CLI_call_scripted by assumption.
  destruct (spec_mode params); [| |now elim Hm].
  - rewrite oneshot_block_eq.
    specialize (Hcmd (trace (scripted_start params)) (run_once params)).
    destruct (Shell_onecmd _ _ _) as [r|e|]; [| |contradiction].
    + destruct r; simpl; auto.
    + destruct e; try contradiction. now right.
  - rewrite batch_block_eq.
    specialize (Hread (trace (scripted_start params))).
    destruct (stdin_readlines _ _) as [lines|e|]; [| |contradiction].
    + destruct (for_each_line_benign env lines Hcmd
                  (log EvReadlines (scripted_start params))) as [H|H];
        destruct (for_each_line env lines _) as [[[]|e| |] w'];
        simpl in H; try discriminate H.
      * now left.
      * injection H as ->. now right.
    + destruct e; try contradiction. now right.
Qed.

Lemma broken_pipe_env_benign : benign broken_pipe_env.
Proof.
  split.
  - intro tr. exact I.
  - intros tr c. simpl.
    destruct (seen is_cmd tr) as [|[|[|n]]]; exact I.
Qed.

Lemma X16_exit_code_is_0_or_1_witness :
  spec_mode params_batch <> Interactive /\
  Shell_init broken_pipe_env [] (shell_args params_batch) = Returns tt /\
  (fst (CLI_call broken_pipe_env 0 params_batch initial_world)
   = Raise (SystemExit 0) \/
   fst (CLI_call broken_pipe_env 0 params_batch initial_world)
   = Raise (SystemExit 1)).
Proof.
  assert (H : spec_mode params_batch <> Interactive) by discriminate.
  split; [exact H | split; [reflexivity|]].
  exact (X16_exit_code_is_0_or_1 broken_pipe_env 0%nat params_batch H eq_refl
           broken_pipe_env_benign).
Defined.

(** X17.  The handler is installed only after the constructor of the [Shell]
    has returned: SIGUSR2 delivered while the [Shell] is being constructed
    meets the default disposition in every mode, also in an interactive call
    without [sync_connect]; it is not turned into [StateTransition], the
    prompt loop is never entered and the handler is never installed. *)
Theorem X17_signal_during_construction :
  forall env fuel params,
    Shell_init env [] (shell_args params) = Sigusr2 ->
    let out := CLI_call env fuel params initial_world in
    fst out = deliver_sigusr2 SIG_DFL /\
    fst out <> Raise StateTransition /\
    trace (snd out) = [EvShell (shell_args params)] /\
    sigusr2 (snd out) = SIG_DFL.
Proof.
  intros env fuel params Hs out. subst out.
  rewrite CLI_call_not_constructed, Hs. simpl.
  repeat split. discriminate.
Qed.

Lemma X17_signal_during_construction_witness :
  Shell_init early_signal_env [] (shell_args params_interactive) = Sigusr2 /\
  fst (CLI_call early_signal_env 9 params_interactive initial_world)
  <> Raise StateTransition.
Proof.
  split; [reflexivity|].
  exact (proj1 (proj2 (X17_signal_during_construction early_signal_env 9%nat
                         params_interactive eq_refl))).
Defined.
